(** * El-Shamela processor: categorization of scrapped parts

    A shallow embedding of the two processors of the dataset tooling
    (the navigation-bar based [initCategorization] and the older
    sequential loop of [dev/processor.js]) together with the helpers
    they share: the sanitizing replacement of [processPart]/[readPart],
    [getChapterBook] and [sortCallback]. *)

From Stdlib Require Import ZArith NArith Ascii String DecimalString List Sorted Lia Bool.
From stdpp Require Import base option list gmap.
Import ListNotations.

Local Open Scope Z_scope.

(** ** Text

    A JavaScript string is a sequence of UTF-16 code units; the regular
    expressions of the processors have no [u] flag, so they work on code
    units. *)

Module Text.

Definition text : Type := list N.

Definition lit (s : string) : text := map N_of_ascii (list_ascii_of_string s).

Definition LT : N := 60.     (* '<' *)
Definition GT : N := 62.     (* '>' *)
Definition SP : N := 32.     (* ' ' *)
Definition LF : N := 10.     (* '\n' *)

(** [\d] without the [u] flag: the ten ASCII digits. *)
Definition is_digit (c : N) : bool := ((48 <=? c) && (c <=? 57))%N.

(** Line terminators, which [.] does not match: LF, CR, U+2028, U+2029. *)
Definition is_line_terminator (c : N) : bool :=
  ((c =? 10) || (c =? 13) || (c =? 8232) || (c =? 8233))%N.

Definition dot (c : N) : bool := negb (is_line_terminator c).

(** [(?:.|\n)] *)
Definition dot_or_nl (c : N) : bool := dot c || (c =? LF)%N.

(** [(?:.|\n)*?>] : the lazy star tries [>] first at every position and
    otherwise consumes one more character of the class. *)
Fixpoint lazy_until_gt (s : text) : option text :=
  match s with
  | [] => None
  | c :: r =>
      if (c =? GT)%N then Some r
      else if dot_or_nl c then lazy_until_gt r
      else None
  end.

(** A literal: the remainder after [p] when [s] starts with [p]. *)
Fixpoint literal (p s : text) : option text :=
  match p, s with
  | [], _ => Some s
  | _ :: _, [] => None
  | a :: p', c :: r => if (a =? c)%N then literal p' r else None
  end.

(** [\d*], greedy. *)
Fixpoint digits (s : text) : text :=
  match s with
  | c :: r => if is_digit c then digits r else s
  | [] => []
  end.

(** [<(?:.|\n)*?>] *)
Definition tag (s : text) : option text :=
  match s with
  | c :: r => if (c =? LT)%N then lazy_until_gt r else None
  | [] => None
  end.

(** [ &quot;] (with its leading space) *)
Definition quot (s : text) : option text := literal (lit " &quot;") s.

(** [\d+ - ] : the greedy digits are followed by a space, which is no
    digit, so giving digits back never helps. *)
Definition numbering (s : text) : option text :=
  match s with
  | c :: r => if is_digit c then literal (lit " - ") (digits r) else None
  | [] => None
  end.

(** The alternation [<(?:.|\n)*?>| &quot;|\d+ - ] tried at the start of
    [s]; the result is the text after the match. *)
Definition match_here (s : text) : option text :=
  match tag s with
  | Some r => Some r
  | None =>
      match quot s with
      | Some r => Some r
      | None => numbering s
      end
  end.

(** [String.prototype.replace] with a global regular expression and the
    replacement [' ']: the leftmost match is replaced and the search goes
    on after it; a character where nothing matches is kept. Every match
    is at least one character long, so [length s] steps are enough. *)
Fixpoint replace_all (fuel : nat) (s : text) : text :=
  match fuel with
  | O => s
  | S k =>
      match s with
      | [] => []
      | c :: r =>
          match match_here s with
          | Some rest => SP :: replace_all k rest
          | None => c :: replace_all k r
          end
      end
  end.

(** [content.replace(/<(?:.|\n)*?>| &quot;|\d+ - /gm, ' ')] *)
Definition sanitize (s : text) : text := replace_all (length s) s.

(** [content.replace(tashkeelRegex, '')], the class [[${tashkeel}]] being
    given by its membership test. *)
Definition strip (tashkeel : N -> bool) (s : text) : text :=
  List.filter (fun c => negb (tashkeel c)) s.

End Text.

Import Text.

(** ** Navigation bar: books, chapters and the lookup

    [page] is the number of the part where a book or a chapter begins:
    the number that the [page] member denotes. [parseInt] and the
    comparison [>] convert the member to that number; on a number
    [parseInt] returns its argument. *)

Definition parseInt (n : Z) : Z := n.

Class Entry (A : Type) := { name : A -> text; page : A -> Z }.

Module Nav.

Record Chapter := mkChapter { chapter_name : text; chapter_page : Z }.

Record Book := mkBook {
  book_name : text;
  book_page : Z;
  chapters : list Chapter
}.

#[global] Instance chapter_entry : Entry Chapter :=
  {| name := chapter_name; page := chapter_page |}.

#[global] Instance book_entry : Entry Book :=
  {| name := book_name; page := book_page |}.

(** [sortCallback]: sorts chapters/books descending. *)
Definition sortCallback {A} `{Entry A} (a b : A) : Z :=
  if parseInt (page a) <? parseInt (page b) then 1
  else if parseInt (page a) >? parseInt (page b) then -1
  else 0.

(** [Array.prototype.sort(compare)]: [a] comes before [b] when
    [compare a b <= 0]. The algorithm is the engine's; a stable insertion
    sort stands for it (with pairwise different pages every sorting
    algorithm gives the same array). *)
Fixpoint insert {A} (compare : A -> A -> Z) (a : A) (l : list A) : list A :=
  match l with
  | [] => [a]
  | b :: r => if compare a b <=? 0 then a :: b :: r else b :: insert compare a r
  end.

Definition sort {A} (compare : A -> A -> Z) (l : list A) : list A :=
  fold_right (insert compare) [] l.

(** The end of the scrapping of the navigation bar:
    [searchReference.sort(sortCallback)], then every book's chapters. *)
Definition sortReference (searchReference : list Book) : list Book :=
  map (fun curBook =>
         mkBook (book_name curBook) (book_page curBook)
                (sort sortCallback (chapters curBook)))
      (sort sortCallback searchReference).

(** [Array.prototype.some] with a callback that assigns to variables of
    the enclosing function: the callback gets their current values and
    returns the new ones with its verdict. *)
Fixpoint some {A S} (f : A -> S -> bool * S) (l : list A) (s : S) : bool * S :=
  match l with
  | [] => (false, s)
  | x :: r =>
      match f x s with
      | (true, s') => (true, s')
      | (false, s') => some f r s'
      end
  end.

Record ChapterBook := mkChapterBook {
  book : option Book;
  chapter : option Chapter
}.

Definition getChapterBook (books : list Book) (partNo : Z) : ChapterBook :=
  let partNo := parseInt partNo in
  snd (some (fun curBook st =>
               if page curBook >? partNo then (false, st)
               else
                 some (fun curChapter st =>
                         if page curChapter >? partNo then (false, st)
                         else (true, mkChapterBook (Some curBook) (Some curChapter)))
                      (chapters curBook) st)
            books (mkChapterBook None None)).

End Nav.

(** ** Parts *)

(** The value of the [caption_id] member of a part. *)
Inductive value :=
| Undefined
| Null
| Num (n : Z)
| Str (s : text).

(** [===] *)
Definition strict_eq (a b : value) : bool :=
  match a, b with
  | Undefined, Undefined => true
  | Null, Null => true
  | Num n, Num m => n =? m
  | Str s, Str t => bool_decide (s = t)
  | _, _ => false
  end.

(** The [page] member of a book or a chapter as [processBook] builds
    it: the string captured by [/(\d+)$/] from the link, the decimal
    numeral of the page. *)
Definition decimal (n : Z) : text := lit (NilZero.string_of_int (Z.to_int n)).

Definition page_member {A} `{Entry A} (a : A) : value := Str (decimal (page a)).

(** An object that holds a part, or the empty object [{}]. *)
Inductive obj (A : Type) :=
| Empty
| Full (a : A).
Arguments Empty {A}.
Arguments Full {A} a.

(** A part, as scrapped ([id], [content], [hadith], [caption_id]) and
    with the members the processors add. [hadith] is a number or null. *)
#[warnings="-register-all"]
Inductive part := mkPart {
  id : Z;
  content : text;
  noTashkeelContent : option text;
  hadith : option Z;
  caption_id : value;
  sourceName : option text;
  book : option (obj part);
  chapter : option (obj part)
}.

Definition set_content (p : part) (c : text) : part :=
  mkPart (id p) c (noTashkeelContent p) (hadith p) (caption_id p)
         (sourceName p) (book p) (chapter p).

Definition set_noTashkeelContent (p : part) (c : text) : part :=
  mkPart (id p) (content p) (Some c) (hadith p) (caption_id p)
         (sourceName p) (book p) (chapter p).

Definition set_sourceName (p : part) (n : text) : part :=
  mkPart (id p) (content p) (noTashkeelContent p) (hadith p) (caption_id p)
         (Some n) (book p) (chapter p).

Definition set_book (p : part) (b : obj part) : part :=
  mkPart (id p) (content p) (noTashkeelContent p) (hadith p) (caption_id p)
         (sourceName p) (Some b) (chapter p).

Definition set_chapter (p : part) (c : obj part) : part :=
  mkPart (id p) (content p) (noTashkeelContent p) (hadith p) (caption_id p)
         (sourceName p) (book p) (Some c).

(** Truthiness of a number-or-null member. *)
Definition truthy (h : option Z) : bool :=
  match h with
  | Some n => negb (n =? 0)
  | None => false
  end.

(** [h < 0]; null converts to [0]. *)
Definition negative (h : option Z) : bool :=
  match h with
  | Some n => n <? 0
  | None => false
  end.

(** [o.id] used as a condition; [{}.id] is undefined. *)
Definition has_id (o : obj part) : bool :=
  match o with
  | Full p => negb (id p =? 0)
  | Empty => false
  end.

(** ** Files

    The scrapped directory and the output directory hold one file per
    part, named by a number; they are two directories (the output
    directory is [processed/] with the last component of the scrapped
    one). A write serializes the part as it is at that moment. A read of a missing file and a member access on null
    throw, which ends the run; the files written so far stay. *)

Record disk := mkDisk {
  source : gmap Z part;            (* directoryAbs *)
  processed : gmap Z part;         (* outputDirAbs *)
  writes : list (Z * part)         (* the calls of writeFileSync, in order *)
}.

Definition io (A : Type) : Type := disk -> disk * option A.

Definition ret {A} (a : A) : io A := fun d => (d, Some a).

Definition throw {A} : io A := fun d => (d, None).

Definition bind {A B} (m : io A) (k : A -> io B) : io B :=
  fun d =>
    match m d with
    | (d', Some a) => k a d'
    | (d', None) => (d', None)
    end.

Declare Scope io_scope.
Delimit Scope io_scope with io.
Notation "x <- m ;; k" := (bind m (fun x => k))
  (at level 100, m at next level, right associativity) : io_scope.
Notation "m ;;; k" := (bind m (fun _ => k))
  (at level 100, right associativity) : io_scope.

Definition readFile (output : bool) (partNo : Z) : io part :=
  fun d =>
    (d, (if output then processed d else source d) !! partNo).

Definition writeFile (partNo : Z) (p : part) : io unit :=
  fun d =>
    (mkDisk (source d) (<[partNo := p]> (processed d)) (writes d ++ [(partNo, p)]),
     Some tt).

(** [for (; i <= files.length; i++)] with [n] iterations left; [s] are
    the variables declared outside the loop. *)
Fixpoint for_loop {S} (n : nat) (i : Z) (body : Z -> S -> io S) (s : S) : io S :=
  match n with
  | O => ret s
  | Datatypes.S n' => bind (body i s) (for_loop n' (i + 1) body)
  end.

(** [fs.readdir]: the number of files of the scrapped directory. *)
Definition files_length (d : disk) : nat := size (source d).

(** ** The processor that follows the navigation bar *)

Module Indexed.
Section WithTashkeel.

(** The characters of [tashkeel.txt], as the class [[${tashkeel}]]. *)
Variable tashkeel : N -> bool.

Local Open Scope io_scope.

Definition readPart (partNo : Z) (output : bool) : io part :=
  readFile output partNo.

Definition processPart (partNo : Z) : io part :=
  partJson <- readPart partNo false ;;
  let partJson := set_content partJson (sanitize (content partJson)) in
  let partJson := set_noTashkeelContent partJson (strip tashkeel (content partJson)) in
  ret partJson.

(** [!part.hadith || (part.hadith && part.hadith < 0)]: the part is no
    hadith. *)
Definition not_hadith (p : part) : bool :=
  negb (truthy (hadith p)) || (truthy (hadith p) && negative (hadith p)).

(** The members [book] and [chapter] of the lookup result are read with
    [.page]: on null that throws. *)
Definition member {A} (o : option A) : io A :=
  match o with
  | Some a => ret a
  | None => throw
  end.

(** The body of the loop of [initCategorization] for the file [i]. *)
Definition categorize (searchReference : list Nav.Book) (i : Z) (_ : unit) : io unit :=
  part <- processPart i ;;
  if not_hadith part then
    writeFile i part
  else
    let partCatInfo := Nav.getChapterBook searchReference (id part) in
    infoBook <- member (Nav.book partCatInfo) ;;
    partBook <- readPart (page infoBook) true ;;
    let part := set_book part (Full (set_sourceName partBook (name infoBook))) in
    infoChapter <- member (Nav.chapter partCatInfo) ;;
    if strict_eq (page_member infoChapter) (Num (id part)) then
      writeFile i part ;;;
      partChapter <- readPart (page infoChapter) true ;;
      let part := set_chapter part (Full (set_sourceName partChapter (name infoChapter))) in
      writeFile i part
    else
      partChapter <- readPart (page infoChapter) true ;;
      let part := set_chapter part (Full (set_sourceName partChapter (name infoChapter))) in
      writeFile i part.

Definition initCategorization (searchReference : list Nav.Book) : io unit :=
  fun d => for_loop (files_length d) 1 (categorize searchReference) tt d.

End WithTashkeel.
End Indexed.

(** ** The sequential processor ([dev/processor.js]) *)

Module Sequential.
Section WithTashkeel.

Variable tashkeel : N -> bool.

Local Open Scope io_scope.

(** [readPart] of this processor sanitizes as well. *)
Definition readPart (partNo : Z) : io part :=
  partJson <- readFile false partNo ;;
  let partJson := set_content partJson (sanitize (content partJson)) in
  let partJson := set_noTashkeelContent partJson (strip tashkeel (content partJson)) in
  ret partJson.

(** The variables declared before the loop. *)
Record vars := mkVars {
  nextPart : obj part;
  book : obj part;
  chapter : obj part;
  firstPart : obj part
}.

Definition init : vars := mkVars Empty Empty Empty Empty.

(** [nextPart.id ? nextPart : readPart(i)] *)
Definition cached (nextPart : obj part) (i : Z) : io part :=
  match nextPart with
  | Full p => if has_id nextPart then ret p else readPart i
  | Empty => readPart i
  end.

(** [firstPart.id ? firstPart : part] *)
Definition first_or (firstPart : obj part) (p : part) : obj part :=
  if has_id firstPart then firstPart else Full p.

(** The body of the loop for the file [i]. *)
Definition categorize (i : Z) (v : vars) : io vars :=
  part <- cached (nextPart v) i ;;
  let v := mkVars Empty (book v) (chapter v) (firstPart v) in
  if truthy (hadith part) then
    let part := set_book part (book v) in
    let part := set_chapter part (chapter v) in
    writeFile i part ;;;
    ret (mkVars (nextPart v) (book v) (chapter v) Empty)
  else
    writeFile i part ;;;
    next <- readPart (i + 1) ;;
    let v := mkVars (Full next) (book v) (chapter v) (firstPart v) in
    if negb (truthy (hadith next)) then
      if strict_eq (caption_id next) (caption_id part) then
        let v := mkVars (nextPart v) (book v) (chapter v) (Full part) in
        ret (mkVars (nextPart v) (book v) (first_or (firstPart v) part) (firstPart v))
      else
        ret (mkVars (nextPart v) (first_or (firstPart v) part) (chapter v) (firstPart v))
    else
      ret (mkVars (nextPart v) (book v) (first_or (firstPart v) part) (firstPart v)).

Definition run : io vars :=
  fun d => for_loop (files_length d) 1 categorize init d.

End WithTashkeel.
End Sequential.

(** ** Directories for the examples *)

(** The files [1], [2], ... holding the parts of [l]. *)
Fixpoint files_from (i : Z) (l : list part) : gmap Z part :=
  match l with
  | [] => ∅
  | p :: r => <[i := p]> (files_from (i + 1) r)
  end.

Definition scrapped (l : list part) : disk := mkDisk (files_from 1 l) ∅ [].

(** A scrapped part: the processors have added nothing yet. *)
Definition raw (i : Z) (c : text) (h : option Z) (g : value) : part :=
  mkPart i c None h g None None None.

(** Fathatan .. sukun, the marks U+064B .. U+0652. *)
Definition arabic_marks (c : N) : bool := ((1611 <=? c) && (c <=? 1618))%N.

(** ** Notions and examples for the statements *)

(** Texts without ['&'] and without ['-']: there only tags can match. *)
Definition plain (s : text) : bool :=
  forallb (fun c => negb (c =? 38)%N && negb (c =? 45)%N) s.

(** The token [ &quot;] occurs in [s]. *)
Definition occurs_quot (s : text) : Prop :=
  exists pre post, s = pre ++ lit " &quot;" ++ post.

(** A numbering prefix, digits followed by [ - ], occurs in [s]. *)
Definition occurs_numbering (s : text) : Prop :=
  exists pre ds post,
    ds <> [] /\ forallb is_digit ds = true /\ s = pre ++ ds ++ lit " - " ++ post.

(** Nothing matches anywhere in [s]. *)
Fixpoint unmatched (s : text) : Prop :=
  match s with
  | [] => True
  | c :: r => match_here (c :: r) = None /\ unmatched r
  end.

(** The callbacks of [getChapterBook], named. *)
Definition chapter_callback (partNo : Z) (curBook : Nav.Book)
    (curChapter : Nav.Chapter) (st : Nav.ChapterBook) : bool * Nav.ChapterBook :=
  if page curChapter >? partNo then (false, st)
  else (true, Nav.mkChapterBook (Some curBook) (Some curChapter)).

Definition book_callback (partNo : Z)
    (curBook : Nav.Book) (st : Nav.ChapterBook) : bool * Nav.ChapterBook :=
  if page curBook >? partNo then (false, st)
  else Nav.some (chapter_callback partNo curBook) (Nav.chapters curBook) st.

(** The scan passes over a book that begins after the part, and over a
    book all of whose chapters begin after the part. *)
Definition passed (partNo : Z) (b : Nav.Book) : Prop :=
  partNo < page b \/ Forall (fun c : Nav.Chapter => partNo < page c) (Nav.chapters b).

(** Pages in strictly ascending order. *)
Definition ascending {A} `{Entry A} (l : list A) : Prop :=
  StronglySorted (fun a b => page a < page b) l.

(** A book with its chapters sorted, as [sortReference] leaves it. *)
Definition sorted_book (b : Nav.Book) : Nav.Book :=
  Nav.mkBook (Nav.book_name b) (Nav.book_page b)
             (Nav.sort Nav.sortCallback (Nav.chapters b)).

(** The navigation bar of the scenario. *)
Definition book_1 : Nav.Book :=
  Nav.mkBook (lit "book 1") 1
    [Nav.mkChapter (lit "chapter 2") 2; Nav.mkChapter (lit "chapter 10") 10].

Definition book_20 : Nav.Book :=
  Nav.mkBook (lit "book 20") 20 [Nav.mkChapter (lit "chapter 21") 21].

Definition scenario_books : list Nav.Book := [book_1; book_20].

(** What [processPart], and [readPart] of the sequential processor, make
    of the part read from the file. *)
Definition sanitized (tashkeel : N -> bool) (p : part) : part :=
  set_noTashkeelContent (set_content p (sanitize (content p)))
                        (strip tashkeel (sanitize (content p))).

(** A part with [hadith] below zero, alone in its directory. *)
Definition negative_part : part := raw 1 (lit "x") (Some (-1)) Null.

(** The case of Sahih Moslim: the chapter of page 2 and its first hadith
    are in the part 2. The part 1 is already processed. *)
Definition moslim_reference : list Nav.Book :=
  Nav.sortReference
    [Nav.mkBook (lit "the book") 1 [Nav.mkChapter (lit "the chapter") 2]].

Definition moslim_parts : list part :=
  [raw 1 (lit "<b>book</b>") None Null;
   raw 2 (lit "<b>chapter</b> 1 - hadith") (Some 1) Null].

Definition moslim_disk : disk :=
  mkDisk (files_from 1 moslim_parts)
         {[ 1 := sanitized arabic_marks (raw 1 (lit "<b>book</b>") None Null) ]}
         [(1, sanitized arabic_marks (raw 1 (lit "<b>book</b>") None Null))].

(** A book, its chapter and a hadith, each in a part of its own; the
    parts 1 and 2 are already processed. *)
Definition apart_parts : list part :=
  [raw 1 (lit "<b>book</b>") None Null;
   raw 2 (lit "<b>chapter</b>") None Null;
   raw 3 (lit "1 - hadith") (Some 1) Null].

Definition apart_disk : disk :=
  mkDisk (files_from 1 apart_parts)
         {[ 1 := sanitized arabic_marks (raw 1 (lit "<b>book</b>") None Null);
            2 := sanitized arabic_marks (raw 2 (lit "<b>chapter</b>") None Null) ]}
         [(1, sanitized arabic_marks (raw 1 (lit "<b>book</b>") None Null));
          (2, sanitized arabic_marks (raw 2 (lit "<b>chapter</b>") None Null))].

(** A hadith in the preface, before the first book of the navigation
    bar. *)
Definition preface_parts : list part :=
  [raw 1 (lit "preface") None Null;
   raw 2 (lit "1 - hadith") (Some 1) Null;
   raw 3 (lit "book") None Null].

Definition late_reference : list Nav.Book :=
  Nav.sortReference [Nav.mkBook (lit "book") 3 [Nav.mkChapter (lit "chapter") 4]].

(** Two hadiths, then a chapter and its hadith. *)
Definition hadiths_first : list part :=
  [raw 1 (lit "1 - first") (Some 1) Null;
   raw 2 (lit "2 - second") (Some 2) Null;
   raw 3 (lit "<b>chapter</b>") None (Num 3);
   raw 4 (lit "3 - third") (Some 3) Null].

(** A chapter defined at three parts with the [caption_id] 7, and its
    hadith. *)
Definition group_part (i : Z) (c : string) : part := raw i (lit c) None (Num 7).

Definition group_of_three : list part :=
  [group_part 1 "chapter, first part";
   group_part 2 "chapter, second part";
   group_part 3 "chapter, third part";
   raw 4 (lit "1 - hadith") (Some 1) Null].

(** The scenario of six parts; the part [i] has the [caption_id] [g i]. *)
Definition six_part (g : Z -> value) (i : Z) (c : string) (h : option Z) : part :=
  raw i (lit c) h (g i).

Definition six_parts (g : Z -> value) : list part :=
  [six_part g 1 "book one" None;
   six_part g 2 "chapter one" None;
   six_part g 3 "1 - hadith" (Some 5);
   six_part g 4 "book two" None;
   six_part g 5 "chapter two" None;
   six_part g 6 "2 - hadith" (Some 1)].

(** A hadith as the sequential processor writes it, with [book] and
    [chapter]. *)
Definition attached (tashkeel : N -> bool) (p : part) (b c : obj part) : part :=
  set_chapter (set_book (sanitized tashkeel p) b) c.

(** ** Further notions: the preparations of the processors *)

(** No tag matches at any position of [s]. *)
Fixpoint tag_free (s : text) : Prop :=
  match s with
  | [] => True
  | c :: r => tag (c :: r) = None /\ tag_free r
  end.

(** Texts without ['<'], without ['&'] and without digits. *)
Definition markless (s : text) : bool :=
  forallb (fun c => negb (c =? LT)%N && negb (c =? 38)%N && negb (is_digit c)) s.

(** [String.prototype.split] with a separator of one character: the
    pieces between the separators; the empty string gives one empty
    piece. *)
Fixpoint split (sep : N) (s : text) : list text :=
  match s with
  | [] => [[]]
  | c :: r =>
      if (c =? sep)%N then [] :: split sep r
      else
        match split sep r with
        | piece :: pieces => (c :: piece) :: pieces
        | [] => [[c]]
        end
  end.

(** [Array.prototype.join] *)
Fixpoint join (sep : text) (pieces : list text) : text :=
  match pieces with
  | [] => []
  | [piece] => piece
  | piece :: rest => piece ++ sep ++ join sep rest
  end.

Definition SLASH : N := 47.  (* '/' *)

(** [tashkeelContent.toString().split('\n').join('')] *)
Definition tashkeel_of (tashkeelContent : text) : text :=
  join [] (split LF tashkeelContent).

(** [SplitLen ? inputSplits[SplitLen-1] : inputSplits], as it is put
    into the template string of [outputDir]; the empty array gives the
    empty string there, an index out of range the text [undefined]. *)
Definition dirName (directory : text) : text :=
  let inputSplits := split SLASH directory in
  let SplitLen := length inputSplits in
  if (SplitLen =? 0)%nat then []
  else nth_default (lit "undefined") inputSplits (SplitLen - 1).

(** [`processed/${dirName}`] *)
Definition outputDir (directory : text) : text :=
  lit "processed/" ++ dirName directory.

(** The loop that creates the output directories:
    [outputDir.split('/').forEach(dir => ...)]; the result is the list of
    the arguments of [createDirIfNotExist], in order. *)
Definition created (outputDir : text) : list text :=
  snd (fold_left
         (fun '(parentDir, calls) dir =>
            let parentDir := parentDir ++ dir ++ [SLASH] in
            (parentDir, calls ++ [parentDir]))
         (split SLASH outputDir) ([], [])).

(** Pages in descending order, equal pages allowed. *)
Definition descending {A} `{Entry A} (l : list A) : Prop :=
  StronglySorted (fun a b => page b <= page a) l.

(** ** Further notions: the runs of the processors *)

(** The files of the scrapped directory are [1], ..., [N], none missing. *)
Definition dense (d : disk) : Prop :=
  forall j, is_Some (source d !! j) <-> 1 <= j <= Z.of_nat (files_length d).

(** The empty object, or a part before the file [i] that is no hadith,
    as [readPart] returns it. *)
Definition header_of (tashkeel : N -> bool) (src : gmap Z part) (i : Z)
    (o : obj part) : Prop :=
  o = Empty \/
  exists j p, 1 <= j < i /\ src !! j = Some p /\ truthy (hadith p) = false /\
              o = Full (sanitized tashkeel p).

(** A file written by the sequential processor: a part that is no
    hadith as [readPart] returns it; a hadith with a book and a chapter
    that are earlier parts, no hadiths, or empty. *)
Definition written_ok (tashkeel : N -> bool) (src : gmap Z part)
    (w : Z * part) : Prop :=
  exists p, src !! fst w = Some p /\
    if truthy (hadith p) then
      exists b c, header_of tashkeel src (fst w) b /\
                  header_of tashkeel src (fst w) c /\
                  snd w = attached tashkeel p b c
    else snd w = sanitized tashkeel p.

(** The state of the sequential loop before the file [i]. *)
Definition loop_state (tashkeel : N -> bool) (src : gmap Z part) (i : Z)
    (v : Sequential.vars) : Prop :=
  1 <= i /\
  (Sequential.nextPart v = Empty \/
   exists p, src !! i = Some p /\ Sequential.nextPart v = Full (sanitized tashkeel p)) /\
  header_of tashkeel src i (Sequential.book v) /\
  header_of tashkeel src i (Sequential.chapter v) /\
  header_of tashkeel src i (Sequential.firstPart v).

(** * Properties *)

(** ** The sanitizing replacement *)

Section Sanitize.

Lemma lazy_until_gt_shorter s r :
  lazy_until_gt s = Some r -> (length r < length s)%nat.
Proof.
  induction s as [|c s IH]; simpl; [discriminate|].
  destruct (c =? GT)%N.
  - intros [= ->]. lia.
  - destruct (dot_or_nl c); [|discriminate].
    intros H. apply IH in H. lia.
Qed.

Lemma literal_shorter p s r :
  literal p s = Some r -> (length r + length p = length s)%nat.
Proof.
  revert s. induction p as [|a p IH]; intros [|c s]; simpl; try discriminate.
  - intros [= <-]. reflexivity.
  - intros [= <-]. simpl. lia.
  - destruct (a =? c)%N; [|discriminate]. intros H. apply IH in H. lia.
Qed.

Lemma digits_shorter s : (length (digits s) <= length s)%nat.
Proof.
  induction s as [|c s IH]; simpl; [lia|].
  destruct (is_digit c); simpl; lia.
Qed.

Lemma match_here_shorter s r :
  match_here s = Some r -> (length r < length s)%nat.
Proof.
  unfold match_here, tag, quot, numbering.
  destruct s as [|c s]; [discriminate|].
  destruct (c =? LT)%N.
  - destruct (lazy_until_gt s) eqn:E.
    + intros [= <-]. apply lazy_until_gt_shorter in E. simpl. lia.
    + destruct (literal _ _) eqn:F.
      * intros [= <-]. apply literal_shorter in F. simpl in *. lia.
      * destruct (is_digit c); [|discriminate].
        intros F'. apply literal_shorter in F'. simpl in *.
        pose proof (digits_shorter s). lia.
  - destruct (literal _ _) eqn:F.
    + intros [= <-]. apply literal_shorter in F. simpl in *. lia.
    + destruct (is_digit c); [|discriminate].
      intros F'. apply literal_shorter in F'. simpl in *.
      pose proof (digits_shorter s). lia.
Qed.

(** More steps than characters change nothing. *)
Lemma replace_all_fuel n : forall m s,
  (length s <= n)%nat -> (length s <= m)%nat ->
  replace_all n s = replace_all m s.
Proof.
  induction n as [|n IH]; intros m s Hn Hm.
  - destruct s; [|simpl in Hn; lia]. destruct m; reflexivity.
  - destruct m as [|m].
    + destruct s; [reflexivity|simpl in Hm; lia].
    + simpl. destruct s as [|c r]; [reflexivity|].
      destruct (match_here (c :: r)) as [rest|] eqn:E.
      * apply match_here_shorter in E. simpl in *.
        f_equal. apply IH; lia.
      * simpl in *. f_equal. apply IH; lia.
Qed.

Lemma sanitize_nil : sanitize [] = [].
Proof. reflexivity. Qed.

Lemma sanitize_cons c r :
  sanitize (c :: r) =
  match match_here (c :: r) with
  | Some rest => SP :: sanitize rest
  | None => c :: sanitize r
  end.
Proof.
  unfold sanitize at 1. cbn [length replace_all].
  destruct (match_here (c :: r)) as [rest|] eqn:E.
  - apply match_here_shorter in E. simpl in E.
    f_equal. apply replace_all_fuel; lia.
  - reflexivity.
Qed.

End Sanitize.

Section Idempotence.

Lemma plain_cons c r :
  plain (c :: r) = true <-> c <> 38%N /\ c <> 45%N /\ plain r = true.
Proof.
  unfold plain. simpl. rewrite !andb_true_iff, !negb_true_iff, !N.eqb_neq.
  tauto.
Qed.

Lemma quot_plain s : plain s = true -> quot s = None.
Proof.
  unfold quot. change (lit " &quot;") with [32; 38; 113; 117; 111; 116; 59]%N.
  destruct s as [|c [|c' r]]; cbn [literal]; try reflexivity.
  - destruct (32 =? c)%N; reflexivity.
  - intros H. apply plain_cons in H as (_ & _ & H).
    apply plain_cons in H as (H & _).
    destruct (32 =? c)%N; [|reflexivity].
    destruct (38 =? c')%N eqn:E; [|reflexivity].
    apply N.eqb_eq in E. congruence.
Qed.

Lemma digits_plain s : plain s = true -> plain (digits s) = true.
Proof.
  induction s as [|c r IH]; simpl; [reflexivity|].
  intros H. destruct (is_digit c); [|exact H].
  apply IH. apply plain_cons in H. tauto.
Qed.

Lemma numbering_plain s : plain s = true -> numbering s = None.
Proof.
  unfold numbering. destruct s as [|c r]; [reflexivity|].
  intros H. destruct (is_digit c); [|reflexivity].
  apply plain_cons in H as (_ & _ & H). apply digits_plain in H.
  change (lit " - ") with [32; 45; 32]%N.
  destruct (digits r) as [|c1 [|c2 r2]]; cbn [literal]; try reflexivity.
  - destruct (32 =? c1)%N; reflexivity.
  - apply plain_cons in H as (_ & _ & H). apply plain_cons in H as (_ & H & _).
    destruct (32 =? c1)%N; [|reflexivity].
    destruct (45 =? c2)%N eqn:E; [|reflexivity].
    apply N.eqb_eq in E. congruence.
Qed.

Lemma match_here_plain s : plain s = true -> match_here s = tag s.
Proof.
  intros H. unfold match_here.
  rewrite (quot_plain s H), (numbering_plain s H).
  destruct (tag s); reflexivity.
Qed.

Lemma lazy_until_gt_plain s r :
  plain s = true -> lazy_until_gt s = Some r -> plain r = true.
Proof.
  induction s as [|c s IH]; simpl; [discriminate|].
  intros H. apply plain_cons in H as (_ & _ & H).
  destruct (c =? GT)%N; [congruence|].
  destruct (dot_or_nl c); [auto|discriminate].
Qed.

Lemma tag_plain s r : plain s = true -> tag s = Some r -> plain r = true.
Proof.
  destruct s as [|c s]; simpl; [discriminate|].
  intros H. apply plain_cons in H as (_ & _ & H).
  destruct (c =? LT)%N; [|discriminate]. apply lazy_until_gt_plain, H.
Qed.

Lemma replace_all_plain n : forall s,
  plain s = true -> plain (replace_all n s) = true.
Proof.
  induction n as [|n IH]; intros s H; simpl; [exact H|].
  destruct s as [|c r]; [reflexivity|].
  destruct (match_here (c :: r)) as [rest|] eqn:E.
  - apply plain_cons. repeat split; try discriminate.
    apply IH. rewrite (match_here_plain _ H) in E. exact (tag_plain _ _ H E).
  - apply plain_cons in H as (H1 & H2 & H3).
    apply plain_cons. auto.
Qed.

Lemma sanitize_plain s : plain s = true -> plain (sanitize s) = true.
Proof. apply replace_all_plain. Qed.

(** A ['<'] that no ['>'] closes stays unclosed after the replacement. *)
Lemma lazy_until_gt_sanitize s :
  plain s = true -> lazy_until_gt s = None ->
  lazy_until_gt (sanitize s) = None.
Proof.
  induction s as [|c r IH]; intros Hp Hn; [reflexivity|].
  rewrite sanitize_cons, (match_here_plain _ Hp).
  pose proof Hp as Hp'. apply plain_cons in Hp' as (_ & _ & Hr).
  simpl in Hn. simpl tag.
  destruct (c =? LT)%N eqn:Elt.
  - apply N.eqb_eq in Elt. subst c. simpl in Hn.
    rewrite Hn. simpl. auto.
  - simpl. destruct (c =? GT)%N; [discriminate|].
    destruct (dot_or_nl c); auto.
Qed.

Lemma unmatched_fixed s : unmatched s -> sanitize s = s.
Proof.
  induction s as [|c r IH]; [reflexivity|].
  intros [H1 H2]. rewrite sanitize_cons, H1, IH; auto.
Qed.

Lemma sanitize_unmatched n : forall s,
  (length s <= n)%nat -> plain s = true -> unmatched (sanitize s).
Proof.
  induction n as [|n IH]; intros s Hl Hp.
  - destruct s; [exact I|simpl in Hl; lia].
  - destruct s as [|c r]; [exact I|].
    rewrite sanitize_cons.
    pose proof (match_here_plain _ Hp) as Hm.
    pose proof Hp as Hp'. apply plain_cons in Hp' as (Hc1 & Hc2 & Hr).
    destruct (match_here (c :: r)) as [rest|] eqn:E.
    + pose proof (match_here_shorter _ _ E) as Hs. simpl in Hl, Hs.
      assert (Hrest : plain rest = true).
      { symmetry in Hm. exact (tag_plain _ _ Hp Hm). }
      split; [|apply IH; [lia|exact Hrest]].
      rewrite match_here_plain.
      * reflexivity.
      * apply plain_cons. repeat split; try discriminate.
        apply sanitize_plain, Hrest.
    + simpl in Hl. split; [|apply IH; [lia|exact Hr]].
      rewrite match_here_plain.
      * symmetry in Hm. cbn [tag] in Hm |- *.
        destruct (c =? LT)%N; [|reflexivity].
        apply lazy_until_gt_sanitize; assumption.
      * apply plain_cons. repeat split; auto. apply sanitize_plain, Hr.
Qed.

End Idempotence.

(** On a text without ['&'] and without ['-'], where only tags are
    replaced, sanitizing the sanitized text changes nothing. *)
Lemma sanitize_idempotent_plain (x : text) :
  plain x = true -> sanitize (sanitize x) = sanitize x.
Proof.
  intros H. apply unmatched_fixed.
  apply (sanitize_unmatched (length x)); [lia|exact H].
Qed.

Lemma sanitize_idempotent_plain_witness :
  plain (lit "<b>3 text</b> <") = true /\
  sanitize (sanitize (lit "<b>3 text</b> <")) = sanitize (lit "<b>3 text</b> <").
Proof.
  split; [reflexivity|].
  apply (sanitize_idempotent_plain (lit "<b>3 text</b> <")). reflexivity.
Defined.

(** C7, as stated, fails: the space that replaces a tag completes a new
    [ &quot;], which a second pass replaces. *)
Lemma sanitize_not_idempotent :
  sanitize (lit "<b>&quot;") = lit " &quot;" /\
  sanitize (sanitize (lit "<b>&quot;")) = lit " " /\
  sanitize (sanitize (lit "<b>&quot;")) <> sanitize (lit "<b>&quot;").
Proof. repeat split; vm_compute; congruence. Qed.

(** The same with the numbering prefix alone. *)
Lemma sanitize_not_idempotent_numbering :
  sanitize (lit "1 -2 - ") = lit "1 - " /\
  sanitize (sanitize (lit "1 -2 - ")) = lit " ".
Proof. split; vm_compute; reflexivity. Qed.

(** C8, as amended: ["<b>3 - text &quot;here</b>"] becomes
    ["  text here "]: one space for [<b>], one for [3 - ], then [text],
    one space for [ &quot;], then [here], and one space for [</b>]. *)
Theorem sanitize_scenario :
  sanitize (lit "<b>3 - text &quot;here</b>") = lit "  text here ".
Proof. vm_compute. reflexivity. Qed.

(** C8, as stated, fails: the result is not ["   text  here"]. *)
Lemma scenario_text_differs :
  sanitize (lit "<b>3 - text &quot;here</b>") <> lit "   text  here".
Proof. vm_compute. congruence. Qed.

(** ** The lookup in the navigation bar *)

Section Lookup.

Lemma getChapterBook_callbacks books partNo :
  Nav.getChapterBook books partNo =
  snd (Nav.some (book_callback partNo) books (Nav.mkChapterBook None None)).
Proof. reflexivity. Qed.

Lemma some_chapters partNo b cs st :
  (Forall (fun c : Nav.Chapter => partNo < page c) cs /\
   Nav.some (chapter_callback partNo b) cs st = (false, st)) \/
  (exists cpre c cpost,
      cs = cpre ++ c :: cpost /\
      Forall (fun c' : Nav.Chapter => partNo < page c') cpre /\
      page c <= partNo /\
      Nav.some (chapter_callback partNo b) cs st =
      (true, Nav.mkChapterBook (Some b) (Some c))).
Proof.
  induction cs as [|c cs IH].
  - left. split; [constructor|reflexivity].
  - cbn [Nav.some]. unfold chapter_callback at 1 3.
    destruct (Z.gtb_spec (page c) partNo) as [Hgt|Hle].
    + destruct IH as [[Hall Hs]|(cpre & c' & cpost & -> & Hpre & Hc & Hs)].
      * left. split; [constructor; assumption|exact Hs].
      * right. exists (c :: cpre), c', cpost.
        repeat split; [constructor; assumption|assumption|exact Hs].
    + right. exists [], c, cs. repeat split; [constructor|assumption].
Qed.

Lemma some_books partNo bs st :
  (Forall (passed partNo) bs /\
   Nav.some (book_callback partNo) bs st = (false, st)) \/
  (exists pre b post cpre c cpost,
      bs = pre ++ b :: post /\
      Nav.chapters b = cpre ++ c :: cpost /\
      Forall (passed partNo) pre /\
      page b <= partNo /\
      Forall (fun c' : Nav.Chapter => partNo < page c') cpre /\
      page c <= partNo /\
      Nav.some (book_callback partNo) bs st =
      (true, Nav.mkChapterBook (Some b) (Some c))).
Proof.
  induction bs as [|b bs IH].
  - left. split; [constructor|reflexivity].
  - cbn [Nav.some]. unfold book_callback at 1 3.
    destruct (Z.gtb_spec (page b) partNo) as [Hgt|Hle].
    + destruct IH as [[Hall Hs]|(pre & b' & post & cpre & c & cpost & -> & Hch & Hpre & Hb & Hcpre & Hc & Hs)].
      * left. split; [constructor; [left|]; assumption|exact Hs].
      * right. exists (b :: pre), b', post, cpre, c, cpost.
        repeat split; try assumption. constructor; [left|]; assumption.
    + destruct (some_chapters partNo b (Nav.chapters b) st)
        as [[Hnone Hs']|(cpre & c & cpost & Hch & Hcpre & Hc & Hs')]; rewrite Hs'.
      * destruct IH as [[Hall Hs]|(pre & b' & post & cpre & c & cpost & -> & Hch & Hpre & Hb & Hcpre & Hc & Hs)].
        -- left. split; [constructor; [right|]; assumption|exact Hs].
        -- right. exists (b :: pre), b', post, cpre, c, cpost.
           repeat split; try assumption. constructor; [right|]; assumption.
      * right. exists [], b, bs, cpre, c, cpost.
        repeat split; try assumption. constructor.
Qed.

(** Entries that begin after the part are skipped. *)
Lemma some_chapters_skip partNo b l1 l2 st :
  Forall (fun c : Nav.Chapter => partNo < page c) l1 ->
  Nav.some (chapter_callback partNo b) (l1 ++ l2) st =
  Nav.some (chapter_callback partNo b) l2 st.
Proof.
  induction 1 as [|c l1 Hc _ IH]; [reflexivity|].
  cbn [app Nav.some]. unfold chapter_callback at 1.
  destruct (Z.gtb_spec (page c) partNo); [exact IH|lia].
Qed.

Lemma some_books_skip partNo l1 l2 st :
  Forall (fun b : Nav.Book => partNo < page b) l1 ->
  Nav.some (book_callback partNo) (l1 ++ l2) st =
  Nav.some (book_callback partNo) l2 st.
Proof.
  induction 1 as [|b l1 Hb _ IH]; [reflexivity|].
  cbn [app Nav.some]. unfold book_callback at 1.
  destruct (Z.gtb_spec (page b) partNo); [exact IH|lia].
Qed.

(** Sorting an ascending array descending reverses it. *)
Lemma insert_last {A} `{Entry A} (a : A) l :
  Forall (fun b => page a < page b) l ->
  Nav.insert Nav.sortCallback a l = l ++ [a].
Proof.
  induction 1 as [|b l Hb _ IH]; [reflexivity|].
  cbn [Nav.insert app]. unfold Nav.sortCallback at 1, parseInt.
  destruct (Z.ltb_spec (page a) (page b)); [|lia].
  cbn. rewrite IH. reflexivity.
Qed.

Lemma sort_ascending {A} `{Entry A} (l : list A) :
  ascending l -> Nav.sort Nav.sortCallback l = rev l.
Proof.
  induction 1 as [|a l Hs IH Ha]; [reflexivity|].
  cbn [Nav.sort fold_right rev]. fold (Nav.sort Nav.sortCallback l).
  rewrite IH. apply insert_last.
  apply List.Forall_forall. intros b Hb. apply in_rev in Hb.
  rewrite List.Forall_forall in Ha. auto.
Qed.

(** After the first entry of an ascending array all pages are larger. *)
Lemma ascending_after {A} `{Entry A} (partNo : Z) (l : list A) :
  ascending l ->
  (forall next, head l = Some next -> partNo < page next) ->
  Forall (fun b => partNo < page b) l.
Proof.
  intros Hs Hhead. destruct l as [|a l]; [constructor|].
  specialize (Hhead a eq_refl). inversion Hs as [|? ? _ Ha]; subst.
  constructor; [assumption|].
  rewrite List.Forall_forall in Ha |- *. intros b Hb. specialize (Ha b Hb). lia.
Qed.

Lemma ascending_app_r {A} `{Entry A} (l1 l2 : list A) :
  ascending (l1 ++ l2) -> ascending l2.
Proof.
  induction l1 as [|a l1 IH]; [auto|].
  cbn [app]. intros Hs. inversion Hs; subst. auto.
Qed.

End Lookup.

(** C9: [getChapterBook] is a total function of the books and the part
    number, and in its result [book] and [chapter] are both null, or
    both set, the chapter being one of the chapters of the book. *)
Theorem getChapterBook_both_or_none (books : list Nav.Book) (partNo : Z) :
  let r := Nav.getChapterBook books partNo in
  (Nav.book r = None /\ Nav.chapter r = None) \/
  (exists b c, Nav.book r = Some b /\ Nav.chapter r = Some c /\
               In b books /\ In c (Nav.chapters b)).
Proof.
  cbv zeta. rewrite getChapterBook_callbacks.
  destruct (some_books partNo books (Nav.mkChapterBook None None))
    as [[_ Hs]|(pre & b & post & cpre & c & cpost & -> & Hch & _ & _ & _ & _ & Hs)];
    rewrite Hs; cbn [snd Nav.book Nav.chapter].
  - left. split; reflexivity.
  - right. exists b, c. repeat split.
    + apply in_or_app. right. left. reflexivity.
    + rewrite Hch. apply in_or_app. right. left. reflexivity.
Qed.

(** C3, as amended: the scan passes over every book that begins after
    the part and over every book none of whose chapters begins at or
    before the part; it stops at the first other book, with the first of
    its chapters that begins at or before the part. The result is null
    for book and chapter exactly when the scan passes over all books. *)
Theorem getChapterBook_scan (books : list Nav.Book) (partNo : Z) :
  (Forall (passed partNo) books /\
   Nav.getChapterBook books partNo = Nav.mkChapterBook None None) \/
  (exists pre b post cpre c cpost,
      books = pre ++ b :: post /\
      Nav.chapters b = cpre ++ c :: cpost /\
      Forall (passed partNo) pre /\
      page b <= partNo /\
      Forall (fun c' : Nav.Chapter => partNo < page c') cpre /\
      page c <= partNo /\
      Nav.getChapterBook books partNo = Nav.mkChapterBook (Some b) (Some c)).
Proof.
  rewrite getChapterBook_callbacks.
  destruct (some_books partNo books (Nav.mkChapterBook None None))
    as [[Hall Hs]|(pre & b & post & cpre & c & cpost & H)].
  - left. rewrite Hs. split; [assumption|reflexivity].
  - right. exists pre, b, post, cpre, c, cpost.
    destruct H as (? & ? & ? & ? & ? & ? & Hs). rewrite Hs. auto 10.
Qed.

(** C3, as stated, fails: for the part 20 the first book of the sorted
    scenario that begins at or before the part is the book of page 20,
    none of its chapters does, and the lookup goes on to the book of
    page 1 instead of returning null. *)
Lemma getChapterBook_falls_through :
  head (Nav.sortReference scenario_books) = Some (sorted_book book_20) /\
  page book_20 <= 20 /\
  Forall (fun c : Nav.Chapter => 20 < page c) (Nav.chapters (sorted_book book_20)) /\
  Nav.getChapterBook (Nav.sortReference scenario_books) 20 =
  Nav.mkChapterBook (Some (sorted_book book_1))
                    (Some (Nav.mkChapter (lit "chapter 10") 10)).
Proof.
  repeat split.
  - cbn. lia.
  - repeat constructor.
Qed.

(** C2, as amended: in a navigation bar with ascending books and
    ascending chapters, sorted descending, a part from the page of a
    chapter up to the next chapter of that book, and before the next
    book, gets that book and that chapter. *)
Theorem getChapterBook_interval
    (books : list Nav.Book) (partNo : Z)
    (pre : list Nav.Book) (b : Nav.Book) (post : list Nav.Book)
    (cpre : list Nav.Chapter) (c : Nav.Chapter) (cpost : list Nav.Chapter) :
  ascending books ->
  Forall (fun b' => ascending (Nav.chapters b')) books ->
  books = pre ++ b :: post ->
  page b <= partNo ->
  (forall next, head post = Some next -> partNo < page next) ->
  Nav.chapters b = cpre ++ c :: cpost ->
  page c <= partNo ->
  (forall next, head cpost = Some next -> partNo < page next) ->
  Nav.getChapterBook (Nav.sortReference books) partNo =
  Nav.mkChapterBook (Some (sorted_book b)) (Some c).
Proof.
  intros Hbooks Hchapters -> Hb Hnext Hch Hc Hcnext.
  rewrite getChapterBook_callbacks. unfold Nav.sortReference.
  change (fun curBook : Nav.Book => _) with sorted_book.
  rewrite (sort_ascending _ Hbooks), rev_app_distr. cbn [rev].
  rewrite <- app_assoc, map_app. cbn [app map].
  assert (Hpost : Forall (fun b' : Nav.Book => partNo < page b') post).
  { apply ascending_after; [|assumption].
    apply ascending_app_r in Hbooks. inversion Hbooks; assumption. }
  rewrite some_books_skip.
  2:{ apply List.Forall_forall. intros x Hx.
      apply in_map_iff in Hx as (y & <- & Hy). apply in_rev in Hy.
      rewrite List.Forall_forall in Hpost. exact (Hpost y Hy). }
  cbn [Nav.some]. unfold book_callback at 1.
  change (page (sorted_book b)) with (page b).
  destruct (Z.gtb_spec (page b) partNo) as [?|_]; [lia|].
  assert (Hasc : ascending (Nav.chapters b)).
  { rewrite List.Forall_forall in Hchapters. apply Hchapters.
    apply in_or_app. right. left. reflexivity. }
  cbn [sorted_book Nav.chapters].
  rewrite (sort_ascending _ Hasc), Hch, rev_app_distr. cbn [rev].
  rewrite <- app_assoc. cbn [app].
  assert (Hcpost : Forall (fun c' : Nav.Chapter => partNo < page c') cpost).
  { apply ascending_after; [|assumption].
    rewrite Hch in Hasc. apply ascending_app_r in Hasc.
    inversion Hasc; assumption. }
  rewrite some_chapters_skip.
  2:{ apply List.Forall_forall. intros x Hx. apply in_rev in Hx.
      rewrite List.Forall_forall in Hcpost. exact (Hcpost x Hx). }
  cbn [Nav.some]. unfold chapter_callback at 1.
  destruct (Z.gtb_spec (page c) partNo) as [?|_]; [lia|].
  reflexivity.
Qed.

Lemma getChapterBook_interval_witness :
  Nav.getChapterBook (Nav.sortReference scenario_books) 15 =
  Nav.mkChapterBook (Some (sorted_book book_1))
                    (Some (Nav.mkChapter (lit "chapter 10") 10)).
Proof.
  apply (getChapterBook_interval scenario_books 15 [] book_1 [book_20]
           [Nav.mkChapter (lit "chapter 2") 2]
           (Nav.mkChapter (lit "chapter 10") 10) []).
  - unfold ascending. repeat constructor.
  - unfold ascending. repeat constructor.
  - reflexivity.
  - cbn. lia.
  - intros next [= <-]. cbn. lia.
  - reflexivity.
  - cbn. lia.
  - intros next [=].
Defined.

(** C2, as stated, fails: in the scenario the parts 1 and 20 lie in the
    ranges of the books of page 1 and page 20, before the first chapter
    of the book; the part 1 gets no book, and the part 20 gets the book
    of page 1 with its chapter of page 10. *)
Lemma getChapterBook_interval_counterexample :
  ascending scenario_books /\
  Forall (fun b' => ascending (Nav.chapters b')) scenario_books /\
  scenario_books = [book_1; book_20] /\
  page book_1 <= 1 < page book_20 /\
  page book_20 <= 20 /\
  Nav.book (Nav.getChapterBook (Nav.sortReference scenario_books) 1) = None /\
  Nav.book (Nav.getChapterBook (Nav.sortReference scenario_books) 20) =
    Some (sorted_book book_1) /\
  sorted_book book_1 <> sorted_book book_20.
Proof.
  repeat split; try (cbn; lia); try discriminate.
  - unfold ascending. repeat constructor.
  - repeat constructor.
Qed.

(** ** The two processors *)

Section Classification.

Lemma truthy_spec h : truthy h = true <-> exists n, h = Some n /\ n <> 0.
Proof.
  destruct h as [n|]; simpl.
  - rewrite negb_true_iff, Z.eqb_neq. split; [eauto|]. intros (m & [= ->] & H). exact H.
  - split; [discriminate|]. intros (n & [=] & _).
Qed.

(** The processor that follows the navigation bar takes a part for a
    hadith exactly when [hadith] is a number greater than zero. *)
Lemma not_hadith_spec p :
  Indexed.not_hadith p = false <-> exists n, hadith p = Some n /\ 0 < n.
Proof.
  unfold Indexed.not_hadith. destruct (hadith p) as [n|]; simpl.
  - destruct (Z.eqb_spec n 0) as [->|Hn]; simpl.
    + split; [discriminate|]. intros (m & [= <-] & H). lia.
    + destruct (Z.ltb_spec n 0); split; try discriminate.
      * intros (m & [= <-] & H'). lia.
      * intros _. exists n. split; [reflexivity|lia].
      * reflexivity.
  - split; [discriminate|]. intros (n & [=] & _).
Qed.

Lemma sanitized_hadith tashkeel p : hadith (sanitized tashkeel p) = hadith p.
Proof. reflexivity. Qed.

Lemma sanitized_id tashkeel p : id (sanitized tashkeel p) = id p.
Proof. reflexivity. Qed.

End Classification.

(** C1: the processor that follows the navigation bar takes a part for
    a hadith exactly when [hadith] is a number greater than zero; the
    sequential processor takes it for a hadith exactly when [hadith] is
    a number other than zero. For a part whose [hadith] is [-1] the two
    differ: the first writes it as it is, as it does for a null
    [hadith]; the second writes it with [book] and [chapter]. *)
Theorem negative_hadith_differs (tashkeel : N -> bool) :
  (forall p, Indexed.not_hadith p = false <-> exists n, hadith p = Some n /\ 0 < n) /\
  (forall p, truthy (hadith p) = true <-> exists n, hadith p = Some n /\ n <> 0) /\
  Indexed.not_hadith negative_part = true /\
  writes (fst (Indexed.initCategorization tashkeel [] (scrapped [negative_part]))) =
    [(1, sanitized tashkeel negative_part)] /\
  truthy (hadith negative_part) = true /\
  writes (fst (Sequential.run tashkeel (scrapped [negative_part]))) =
    [(1, attached tashkeel negative_part Empty Empty)].
Proof.
  split; [exact not_hadith_spec|].
  split; [intros p; apply truthy_spec|].
  repeat split.
Qed.

Section Monad.

Lemma bind_ok {A B} (m : io A) (k : A -> io B) d d' a :
  m d = (d', Some a) -> bind m k d = k a d'.
Proof. unfold bind. intros ->. reflexivity. Qed.

Lemma bind_throw {A B} (m : io A) (k : A -> io B) d d' :
  m d = (d', None) -> bind m k d = (d', None).
Proof. unfold bind. intros ->. reflexivity. Qed.

Lemma for_loop_app {V} (body : Z -> V -> io V) (a b : nat) : forall i s d,
  for_loop (a + b) i body s d =
  match for_loop a i body s d with
  | (d', Some s') => for_loop b (i + Z.of_nat a) body s' d'
  | (d', None) => (d', None)
  end.
Proof.
  induction a as [|a IH]; intros i s d.
  - cbn. rewrite Z.add_0_r. reflexivity.
  - cbn [Nat.add for_loop]. unfold bind at 1 2.
    destruct (body i s d) as [d1 [s1|]]; [|reflexivity].
    rewrite IH. replace (i + 1 + Z.of_nat a) with (i + Z.of_nat (S a)) by lia.
    reflexivity.
Qed.

End Monad.

Section IndexedRun.

Variable tashkeel : N -> bool.

Lemma processPart_source i d p0 :
  source d !! i = Some p0 ->
  Indexed.processPart tashkeel i d = (d, Some (sanitized tashkeel p0)).
Proof.
  intros H. unfold Indexed.processPart, Indexed.readPart, readFile, bind, ret.
  rewrite H. reflexivity.
Qed.

Lemma readPart_processed d partNo p :
  processed d !! partNo = Some p ->
  Indexed.readPart partNo true d = (d, Some p).
Proof. intros H. unfold Indexed.readPart, readFile. rewrite H. reflexivity. Qed.

(** When the lookup finds nothing, reading [.page] of the null book
    throws: the run ends there and the part is not written. *)
Lemma categorize_not_found searchReference i d p0 :
  source d !! i = Some p0 ->
  Indexed.not_hadith (sanitized tashkeel p0) = false ->
  Nav.getChapterBook searchReference (id p0) = Nav.mkChapterBook None None ->
  Indexed.categorize tashkeel searchReference i tt d = (d, None).
Proof.
  intros Hs Hh Hl. unfold Indexed.categorize.
  rewrite (bind_ok _ _ _ _ _ (processPart_source i d p0 Hs)).
  rewrite Hh, sanitized_id, Hl. reflexivity.
Qed.

End IndexedRun.

(** A page of the search reference is a string and the id of a part is
    a number: they are never [===]. *)
Lemma page_member_id {A} `{Entry A} (a : A) (n : Z) :
  strict_eq (page_member a) (Num n) = false.
Proof. reflexivity. Qed.

(** C6, as amended: a hadith whose book and chapter the lookup finds,
    the page of the chapter being another number than the id of the
    part, and whose book and chapter files are in the output directory,
    is written once, with [book] and [chapter], each carrying the name
    from the navigation bar as its [sourceName]. *)
Theorem single_write (tashkeel : N -> bool) (searchReference : list Nav.Book)
    (i : Z) (d : disk) (p0 : part) (b : Nav.Book) (c : Nav.Chapter)
    (partBook partChapter : part) :
  let part := sanitized tashkeel p0 in
  let part1 := set_book part (Full (set_sourceName partBook (name b))) in
  let part2 := set_chapter part1 (Full (set_sourceName partChapter (name c))) in
  source d !! i = Some p0 ->
  Indexed.not_hadith part = false ->
  Nav.getChapterBook searchReference (id part) = Nav.mkChapterBook (Some b) (Some c) ->
  page c <> id part ->
  processed d !! page b = Some partBook ->
  processed d !! page c = Some partChapter ->
  Indexed.categorize tashkeel searchReference i tt d =
    (mkDisk (source d) (<[i := part2]> (processed d)) (writes d ++ [(i, part2)]),
     Some tt) /\
  book part2 = Some (Full (set_sourceName partBook (name b))) /\
  chapter part2 = Some (Full (set_sourceName partChapter (name c))) /\
  sourceName (set_sourceName partBook (name b)) = Some (name b) /\
  sourceName (set_sourceName partChapter (name c)) = Some (name c).
Proof.
  intros part part1 part2 Hsrc Hhadith Hlookup _ Hbook Hchapter.
  split; [|repeat split].
  unfold Indexed.categorize.
  rewrite (bind_ok _ _ _ _ _ (processPart_source tashkeel i d p0 Hsrc)).
  fold part. rewrite Hhadith, Hlookup. cbn [Nav.book Nav.chapter Indexed.member].
  rewrite (bind_ok _ _ d d b eq_refl).
  rewrite (bind_ok _ _ _ _ _ (readPart_processed d _ _ Hbook)).
  rewrite (bind_ok _ _ d d c eq_refl).
  fold part1. rewrite page_member_id.
  rewrite (bind_ok _ _ _ _ _ (readPart_processed d _ _ Hchapter)).
  reflexivity.
Qed.

Lemma single_write_witness :
  let book := sanitized arabic_marks (raw 1 (lit "<b>book</b>") None Null) in
  let chapter := sanitized arabic_marks (raw 2 (lit "<b>chapter</b>") None Null) in
  let part := sanitized arabic_marks (raw 3 (lit "1 - hadith") (Some 1) Null) in
  let part2 :=
    set_chapter (set_book part (Full (set_sourceName book (lit "the book"))))
                (Full (set_sourceName chapter (lit "the chapter"))) in
  Indexed.categorize arabic_marks moslim_reference 3 tt apart_disk =
    (mkDisk (source apart_disk) (<[3 := part2]> (processed apart_disk))
            (writes apart_disk ++ [(3, part2)]),
     Some tt).
Proof.
  intros book chapter part part2.
  apply (single_write arabic_marks moslim_reference 3 apart_disk
           (raw 3 (lit "1 - hadith") (Some 1) Null)
           (Nav.mkBook (lit "the book") 1 [Nav.mkChapter (lit "the chapter") 2])
           (Nav.mkChapter (lit "the chapter") 2) book chapter).
  - reflexivity.
  - reflexivity.
  - reflexivity.
  - cbn. lia.
  - reflexivity.
  - reflexivity.
Defined.

(** C6, as stated, fails. In the case of Sahih Moslim the part 2 is a
    hadith and the chapter found for it has the page 2, its id; the
    page, a string, is not [===] the id, the file 2 is read before it
    is written, and the run ends with the part 1 written and the part 2
    not written at all. For a hadith before the first chapter of the
    navigation bar nothing is found, and it is not written either. *)
Lemma hadith_not_written :
  moslim_parts !! 1%nat = Some (raw 2 (lit "<b>chapter</b> 1 - hadith") (Some 1) Null) /\
  Nav.chapter (Nav.getChapterBook moslim_reference 2) =
    Some (Nav.mkChapter (lit "the chapter") 2) /\
  Indexed.initCategorization arabic_marks moslim_reference (scrapped moslim_parts) =
    (mkDisk (source (scrapped moslim_parts))
            {[ 1 := sanitized arabic_marks (raw 1 (lit "<b>book</b>") None Null) ]}
            [(1, sanitized arabic_marks (raw 1 (lit "<b>book</b>") None Null))],
     None) /\
  Nav.chapter (Nav.getChapterBook late_reference 2) = None /\
  Indexed.initCategorization arabic_marks late_reference (scrapped preface_parts) =
    (mkDisk (source (scrapped preface_parts))
            {[ 1 := sanitized arabic_marks (raw 1 (lit "preface") None Null) ]}
            [(1, sanitized arabic_marks (raw 1 (lit "preface") None Null))],
     None).
Proof. repeat split. Qed.

(** ** The sequential processor *)

Section SequentialRun.

Variable tashkeel : N -> bool.

(** The iteration for the file [i] writes no other file. *)
Lemma categorize_frame i v d d' r :
  Sequential.categorize tashkeel i v d = (d', r) ->
  source d' = source d /\
  forall j, j <> i -> processed d' !! j = processed d !! j.
Proof.
  unfold Sequential.categorize, Sequential.cached, Sequential.readPart,
    bind, readFile, writeFile, ret.
  intros H.
  repeat (case_match; simplify_eq; cbn [source processed] in * ); split; try reflexivity;
    intros j Hj; rewrite ?lookup_insert_ne by congruence; reflexivity.
Qed.

Lemma for_loop_frame n : forall i v d d' r,
  for_loop n i (Sequential.categorize tashkeel) v d = (d', r) ->
  source d' = source d /\
  forall j, j < i -> processed d' !! j = processed d !! j.
Proof.
  induction n as [|n IH]; intros i v d d' r H.
  - cbn in H. unfold ret in H. simplify_eq. auto.
  - cbn [for_loop] in H. unfold bind in H.
    destruct (Sequential.categorize tashkeel i v d) as [d1 [v1|]] eqn:E.
    + apply categorize_frame in E as [Hs Hp].
      apply IH in H as [Hs' Hp']. split; [congruence|].
      intros j Hj. rewrite Hp' by lia. apply Hp. lia.
    + simplify_eq. apply categorize_frame in E as [Hs Hp].
      split; [assumption|]. intros j Hj. apply Hp. lia.
Qed.

(** The part of the iteration [i]: the cached one is the part of the
    file [i], read at the iteration before. *)
Lemma cached_source i d p next :
  next = Empty \/ next = Full (sanitized tashkeel p) ->
  source d !! i = Some p ->
  Sequential.cached tashkeel next i d = (d, Some (sanitized tashkeel p)).
Proof.
  intros Hc Hs.
  assert (Hr : Sequential.readPart tashkeel i d = (d, Some (sanitized tashkeel p))).
  { unfold Sequential.readPart, bind, readFile, ret. rewrite Hs. reflexivity. }
  destruct Hc as [-> | ->]; cbn [Sequential.cached]; [exact Hr|].
  destruct (has_id _); [reflexivity|exact Hr].
Qed.

Lemma first_or_self q : Sequential.first_or (Full q) q = Full q.
Proof. unfold Sequential.first_or. destruct (has_id _); reflexivity. Qed.

(** The iteration on a hadith. *)
Lemma categorize_hadith i v d p :
  Sequential.nextPart v = Empty \/
    Sequential.nextPart v = Full (sanitized tashkeel p) ->
  source d !! i = Some p ->
  truthy (hadith p) = true ->
  Sequential.categorize tashkeel i v d =
  (mkDisk (source d)
          (<[i := attached tashkeel p (Sequential.book v) (Sequential.chapter v)]>
             (processed d))
          (writes d ++ [(i, attached tashkeel p (Sequential.book v) (Sequential.chapter v))]),
   Some (Sequential.mkVars Empty (Sequential.book v) (Sequential.chapter v) Empty)).
Proof.
  intros Hn Hs Hh. unfold Sequential.categorize.
  rewrite (bind_ok _ _ _ _ _ (cached_source i d p _ Hn Hs)).
  rewrite sanitized_hadith, Hh. reflexivity.
Qed.

(** The iteration on a part that is no hadith, followed by the part [q]:
    the part is written as it is, [q] is cached, and one of [book],
    [chapter] and [firstPart] is assigned. *)
Lemma categorize_header i v d p q :
  Sequential.nextPart v = Empty \/
    Sequential.nextPart v = Full (sanitized tashkeel p) ->
  source d !! i = Some p ->
  truthy (hadith p) = false ->
  source d !! (i + 1) = Some q ->
  Sequential.categorize tashkeel i v d =
  (mkDisk (source d)
          (<[i := sanitized tashkeel p]> (processed d))
          (writes d ++ [(i, sanitized tashkeel p)]),
   Some
     (if truthy (hadith q) then
        Sequential.mkVars (Full (sanitized tashkeel q)) (Sequential.book v)
          (Sequential.first_or (Sequential.firstPart v) (sanitized tashkeel p))
          (Sequential.firstPart v)
      else if strict_eq (caption_id q) (caption_id p) then
        Sequential.mkVars (Full (sanitized tashkeel q)) (Sequential.book v)
          (Full (sanitized tashkeel p)) (Full (sanitized tashkeel p))
      else
        Sequential.mkVars (Full (sanitized tashkeel q))
          (Sequential.first_or (Sequential.firstPart v) (sanitized tashkeel p))
          (Sequential.chapter v) (Sequential.firstPart v))).
Proof.
  intros Hn Hs Hh Hq. unfold Sequential.categorize.
  rewrite (bind_ok _ _ _ _ _ (cached_source i d p _ Hn Hs)).
  rewrite sanitized_hadith, Hh.
  rewrite (bind_ok _ _ _ _ tt eq_refl).
  set (d1 := mkDisk _ _ _).
  assert (Hr : Sequential.readPart tashkeel (i + 1) d1 = (d1, Some (sanitized tashkeel q))).
  { unfold Sequential.readPart, bind, readFile, ret. cbn [source d1]. rewrite Hq.
    reflexivity. }
  rewrite (bind_ok _ _ _ _ _ Hr).
  rewrite sanitized_hadith.
  cbn [Sequential.nextPart Sequential.book Sequential.chapter Sequential.firstPart].
  destruct (truthy (hadith q)); cbn [negb]; [reflexivity|].
  change (caption_id (sanitized tashkeel q)) with (caption_id q).
  change (caption_id (sanitized tashkeel p)) with (caption_id p).
  destruct (strict_eq _ _); [|reflexivity].
  rewrite first_or_self. reflexivity.
Qed.

(** A header defined at three parts, anywhere in the directory and with
    any book so far: its hadith gets the second part as the chapter. *)
Lemma group_of_three_anywhere i v d p1 p2 p3 p4 :
  Sequential.nextPart v = Empty ->
  source d !! i = Some p1 ->
  source d !! (i + 1) = Some p2 ->
  source d !! (i + 1 + 1) = Some p3 ->
  source d !! (i + 1 + 1 + 1) = Some p4 ->
  truthy (hadith p1) = false ->
  truthy (hadith p2) = false ->
  truthy (hadith p3) = false ->
  truthy (hadith p4) = true ->
  strict_eq (caption_id p2) (caption_id p1) = true ->
  strict_eq (caption_id p3) (caption_id p2) = true ->
  id p2 <> 0 ->
  exists d' v',
    for_loop 4 i (Sequential.categorize tashkeel) v d = (d', Some v') /\
    processed d' !! (i + 1 + 1 + 1) =
    Some (attached tashkeel p4 (Sequential.book v) (Full (sanitized tashkeel p2))).
Proof.
  intros Hn H1 H2 H3 H4 Hh1 Hh2 Hh3 Hh4 Hg12 Hg23 Hid.
  cbn [for_loop].
  rewrite (bind_ok _ _ _ _ _ (categorize_header i v d p1 p2 (or_introl Hn) H1 Hh1 H2)).
  rewrite Hh2, Hg12.
  erewrite bind_ok
    by (apply (categorize_header _ _ _ p2 p3); [right; reflexivity|assumption..]).
  rewrite Hh3, Hg23.
  erewrite bind_ok
    by (apply (categorize_header _ _ _ p3 p4); [right; reflexivity|assumption..]).
  rewrite Hh4.
  erewrite bind_ok
    by (apply (categorize_hadith _ _ _ p4); [right; reflexivity|assumption..]).
  do 2 eexists. split; [reflexivity|].
  cbn [processed Sequential.book Sequential.chapter Sequential.firstPart].
  rewrite lookup_insert_eq. unfold Sequential.first_or, has_id.
  rewrite sanitized_id. apply Z.eqb_neq in Hid. rewrite Hid. reflexivity.
Qed.

(** Two parts that are no hadiths, with equal [caption_id] (two null
    values are equal), and a hadith: the first part is its chapter and
    the book stays as it was. *)
Lemma two_headers_equal_caption i v d p1 p2 p3 :
  Sequential.nextPart v = Empty ->
  source d !! i = Some p1 ->
  source d !! (i + 1) = Some p2 ->
  source d !! (i + 1 + 1) = Some p3 ->
  truthy (hadith p1) = false ->
  truthy (hadith p2) = false ->
  truthy (hadith p3) = true ->
  strict_eq (caption_id p2) (caption_id p1) = true ->
  id p1 <> 0 ->
  exists d' v',
    for_loop 3 i (Sequential.categorize tashkeel) v d = (d', Some v') /\
    processed d' !! (i + 1 + 1) =
    Some (attached tashkeel p3 (Sequential.book v) (Full (sanitized tashkeel p1))).
Proof.
  intros Hn H1 H2 H3 Hh1 Hh2 Hh3 Hg12 Hid.
  cbn [for_loop].
  rewrite (bind_ok _ _ _ _ _ (categorize_header i v d p1 p2 (or_introl Hn) H1 Hh1 H2)).
  rewrite Hh2, Hg12.
  erewrite bind_ok
    by (apply (categorize_header _ _ _ p2 p3); [right; reflexivity|assumption..]).
  rewrite Hh3.
  erewrite bind_ok
    by (apply (categorize_hadith _ _ _ p3); [right; reflexivity|assumption..]).
  do 2 eexists. split; [reflexivity|].
  cbn [processed Sequential.book Sequential.chapter Sequential.firstPart].
  rewrite lookup_insert_eq. unfold Sequential.first_or, has_id.
  rewrite sanitized_id. apply Z.eqb_neq in Hid. rewrite Hid. reflexivity.
Qed.


End SequentialRun.



(** C4: for a chapter defined at three parts the sequential processor
    gives the hadith the second part as its chapter, not the first:
    [firstPart] is assigned again at the second part. *)
Theorem group_of_three_second_part (tashkeel : N -> bool) :
  let out := Sequential.run tashkeel (scrapped group_of_three) in
  (exists v, snd out = Some v) /\
  processed (fst out) !! 4 =
    Some (set_chapter
            (set_book (sanitized tashkeel (raw 4 (lit "1 - hadith") (Some 1) Null)) Empty)
            (Full (sanitized tashkeel (group_part 2 "chapter, second part")))) /\
  sanitized tashkeel (group_part 2 "chapter, second part") <>
  sanitized tashkeel (group_part 1 "chapter, first part").
Proof.
  cbv zeta. split; [|split].
  - lazy -[strip]. eexists. reflexivity.
  - lazy -[strip]. reflexivity.
  - intros H. apply (f_equal id) in H. discriminate H.
Qed.

(** With two parts the first one is taken. *)
Example group_of_two_first_part (tashkeel : N -> bool) :
  processed (fst (Sequential.run tashkeel
                    (scrapped [group_part 1 "chapter, first part";
                               group_part 2 "chapter, second part";
                               raw 3 (lit "1 - hadith") (Some 1) Null]))) !! 3 =
  Some (set_chapter
          (set_book (sanitized tashkeel (raw 3 (lit "1 - hadith") (Some 1) Null)) Empty)
          (Full (sanitized tashkeel (group_part 1 "chapter, first part")))).
Proof. lazy -[strip]. reflexivity. Qed.

(** C5: with a null [caption_id] everywhere the two null values are
    equal, the parts 1 and 2 count as one chapter, and so do 4 and 5:
    the part 3 gets no book and the part 1 as its chapter, the part 6
    gets no book and the part 4 as its chapter. *)
Theorem six_parts_null_group (tashkeel : N -> bool) :
  let g := fun _ : Z => Null in
  let out := Sequential.run tashkeel (scrapped (six_parts g)) in
  processed (fst out) !! 3 =
    Some (attached tashkeel (six_part g 3 "1 - hadith" (Some 5)) Empty
            (Full (sanitized tashkeel (six_part g 1 "book one" None)))) /\
  processed (fst out) !! 6 =
    Some (attached tashkeel (six_part g 6 "2 - hadith" (Some 1)) Empty
            (Full (sanitized tashkeel (six_part g 4 "book two" None)))).
Proof. cbv zeta. split; lazy -[strip]; reflexivity. Qed.

(** With a [caption_id] of its own at every part the scenario comes out
    as the categorization theory says: book 1 and chapter 2 for the
    part 3, book 4 and chapter 5 for the part 6. *)
Example six_parts_own_groups (tashkeel : N -> bool) :
  let out := Sequential.run tashkeel (scrapped (six_parts Num)) in
  processed (fst out) !! 3 =
    Some (attached tashkeel (six_part Num 3 "1 - hadith" (Some 5))
            (Full (sanitized tashkeel (six_part Num 1 "book one" None)))
            (Full (sanitized tashkeel (six_part Num 2 "chapter one" None)))) /\
  processed (fst out) !! 6 =
    Some (attached tashkeel (six_part Num 6 "2 - hadith" (Some 1))
            (Full (sanitized tashkeel (six_part Num 4 "book two" None)))
            (Full (sanitized tashkeel (six_part Num 5 "chapter two" None)))).
Proof. cbv zeta. split; lazy -[strip]; reflexivity. Qed.

(** * Further properties *)

(** ** The sanitizing replacement, continued *)

Section SanitizeMore.

Lemma digit_inside c : is_digit c = true -> (c =? GT)%N = false /\ dot_or_nl c = true.
Proof.
  unfold is_digit, dot_or_nl, dot, is_line_terminator, GT, LF.
  rewrite andb_true_iff, !N.leb_le. intros [H1 H2].
  split.
  - apply N.eqb_neq. lia.
  - repeat (match goal with |- context [(c =? ?k)%N] =>
              destruct (N.eqb_spec c k); [lia|] end).
    reflexivity.
Qed.

Lemma lazy_until_gt_digits s : lazy_until_gt (digits s) = lazy_until_gt s.
Proof.
  induction s as [|c r IH]; [reflexivity|].
  cbn [digits]. destruct (is_digit c) eqn:E; [|reflexivity].
  destruct (digit_inside c E) as [H1 H2]. cbn [lazy_until_gt].
  rewrite H1, H2. exact IH.
Qed.

(** A literal without ['>'] and without line terminators. *)
Lemma lazy_until_gt_literal p : forall s r,
  forallb (fun c => negb (c =? GT)%N && dot_or_nl c) p = true ->
  literal p s = Some r -> lazy_until_gt s = lazy_until_gt r.
Proof.
  induction p as [|a p IH]; intros s r Hp Hl.
  - cbn in Hl. congruence.
  - destruct s as [|c s]; [discriminate|]. cbn [literal] in Hl.
    destruct (N.eqb_spec a c) as [<-|]; [|discriminate].
    cbn [forallb] in Hp. apply andb_true_iff in Hp as [Ha Hp].
    apply andb_true_iff in Ha as [Ha1 Ha2]. apply negb_true_iff in Ha1.
    cbn [lazy_until_gt]. rewrite Ha1, Ha2. eauto.
Qed.

(** A match other than a tag has no ['>'] inside; a tag is no match
    where nothing closes it. *)
Lemma match_here_unclosed s rest :
  match_here s = Some rest -> lazy_until_gt s = None ->
  lazy_until_gt rest = None.
Proof.
  unfold match_here. intros Hm Hn.
  destruct (tag s) as [r|] eqn:Et.
  - destruct s as [|c s]; [discriminate|]. cbn [tag] in Et.
    destruct (N.eqb_spec c LT) as [->|]; [|discriminate].
    cbn in Hn. congruence.
  - destruct (quot s) as [r|] eqn:Eq.
    + injection Hm as ->. unfold quot in Eq.
      rewrite <- (lazy_until_gt_literal (lit " &quot;") _ _ eq_refl Eq). exact Hn.
    + unfold numbering in Hm. destruct s as [|c s]; [discriminate|].
      destruct (is_digit c) eqn:Ed; [|discriminate].
      rewrite <- (lazy_until_gt_literal (lit " - ") _ _ eq_refl Hm).
      rewrite lazy_until_gt_digits.
      destruct (digit_inside c Ed) as [H1 H2]. cbn [lazy_until_gt] in Hn.
      rewrite H1, H2 in Hn. exact Hn.
Qed.

Lemma lazy_until_gt_unclosed n : forall s,
  (length s <= n)%nat -> lazy_until_gt s = None ->
  lazy_until_gt (sanitize s) = None.
Proof.
  induction n as [|n IH]; intros s Hl Hn.
  - destruct s; [reflexivity|simpl in Hl; lia].
  - destruct s as [|c r]; [reflexivity|]. rewrite sanitize_cons.
    destruct (match_here (c :: r)) as [rest|] eqn:E.
    + pose proof (match_here_shorter _ _ E) as Hs. simpl in Hl, Hs.
      cbn [lazy_until_gt]. change (SP =? GT)%N with false.
      change (dot_or_nl SP) with true. cbv iota.
      apply IH; [lia|]. exact (match_here_unclosed _ _ E Hn).
    + simpl in Hl. cbn [lazy_until_gt] in Hn |- *.
      destruct (c =? GT)%N; [discriminate|].
      destruct (dot_or_nl c); [|reflexivity].
      apply IH; [lia|exact Hn].
Qed.

Lemma sanitize_tag_free_fuel n : forall s,
  (length s <= n)%nat -> tag_free (sanitize s).
Proof.
  induction n as [|n IH]; intros s Hl.
  - destruct s; [exact I|simpl in Hl; lia].
  - destruct s as [|c r]; [exact I|]. rewrite sanitize_cons.
    destruct (match_here (c :: r)) as [rest|] eqn:E.
    + pose proof (match_here_shorter _ _ E) as Hs. simpl in Hl, Hs.
      split; [reflexivity|apply IH; lia].
    + simpl in Hl. split; [|apply IH; lia].
      unfold match_here in E. destruct (tag (c :: r)) eqn:Et; [discriminate|].
      cbn [tag] in Et |- *. destruct (c =? LT)%N; [|reflexivity].
      apply (lazy_until_gt_unclosed (length r)); [lia|exact Et].
Qed.

Lemma replace_all_length n : forall s,
  (length (replace_all n s) <= length s)%nat.
Proof.
  induction n as [|n IH]; intros s; [reflexivity|].
  destruct s as [|c r]; [reflexivity|]. cbn [replace_all].
  destruct (match_here (c :: r)) as [rest|] eqn:E.
  - apply match_here_shorter in E. specialize (IH rest). simpl in *. lia.
  - specialize (IH r). simpl. lia.
Qed.

Lemma literal_suffix p : forall s r, literal p s = Some r -> exists k, s = k ++ r.
Proof.
  induction p as [|a p IH]; intros s r H.
  - cbn in H. injection H as ->. exists []. reflexivity.
  - destruct s as [|c s]; [discriminate|]. cbn [literal] in H.
    destruct (a =? c)%N; [|discriminate].
    destruct (IH _ _ H) as [k ->]. exists (c :: k). reflexivity.
Qed.

Lemma lazy_until_gt_suffix s : forall r,
  lazy_until_gt s = Some r -> exists k, s = k ++ r.
Proof.
  induction s as [|c s IH]; intros r H; [discriminate|].
  cbn [lazy_until_gt] in H. destruct (c =? GT)%N.
  - injection H as ->. exists [c]. reflexivity.
  - destruct (dot_or_nl c); [|discriminate].
    destruct (IH _ H) as [k ->]. exists (c :: k). reflexivity.
Qed.

Lemma digits_suffix s : exists k, s = k ++ digits s.
Proof.
  induction s as [|c s [k IH]]; [exists []; reflexivity|].
  cbn [digits]. destruct (is_digit c).
  - exists (c :: k). cbn. congruence.
  - exists []. reflexivity.
Qed.

Lemma match_here_suffix s rest :
  match_here s = Some rest -> exists k, s = k ++ rest.
Proof.
  unfold match_here. intros H.
  destruct (tag s) as [r|] eqn:Et.
  - injection H as ->. destruct s as [|c s]; [discriminate|]. cbn [tag] in Et.
    destruct (c =? LT)%N; [|discriminate].
    destruct (lazy_until_gt_suffix _ _ Et) as [k ->]. exists (c :: k). reflexivity.
  - destruct (quot s) as [r|] eqn:Eq.
    + injection H as ->. exact (literal_suffix _ _ _ Eq).
    + unfold numbering in H. destruct s as [|c s]; [discriminate|].
      destruct (is_digit c); [|discriminate].
      destruct (literal_suffix _ _ _ H) as [k Hk].
      destruct (digits_suffix s) as [k' Hk'].
      exists (c :: k' ++ k). cbn. rewrite <- app_assoc, <- Hk. congruence.
Qed.

Lemma replace_all_chars n : forall s c,
  In c (replace_all n s) -> c = SP \/ In c s.
Proof.
  induction n as [|n IH]; intros s c H; [right; exact H|].
  destruct s as [|a r]; [destruct H|]. cbn [replace_all] in H.
  destruct (match_here (a :: r)) as [rest|] eqn:E.
  - destruct H as [<-|H]; [left; reflexivity|].
    destruct (IH _ _ H) as [->|Hin]; [left; reflexivity|right].
    destruct (match_here_suffix _ _ E) as [k ->].
    apply in_or_app. right. exact Hin.
  - destruct H as [<-|H]; [right; left; reflexivity|].
    destruct (IH _ _ H) as [->|Hin]; [left; reflexivity|right; right; exact Hin].
Qed.

Lemma markless_cons c r :
  markless (c :: r) = true <->
  c <> LT /\ c <> 38%N /\ is_digit c = false /\ markless r = true.
Proof.
  unfold markless. cbn [forallb].
  rewrite !andb_true_iff, !negb_true_iff, !N.eqb_neq. tauto.
Qed.

Lemma markless_unmatched s : markless s = true -> unmatched s.
Proof.
  induction s as [|c r IH]; [intros _; exact I|].
  intros H. apply markless_cons in H as (H1 & H2 & H3 & H4).
  split; [|auto].
  unfold match_here, tag, quot, numbering. rewrite H3.
  apply N.eqb_neq in H1. rewrite H1.
  change (lit " &quot;") with [32; 38; 113; 117; 111; 116; 59]%N.
  cbn [literal]. destruct (32 =? c)%N; [|reflexivity].
  destruct r as [|c' r']; [reflexivity|].
  apply markless_cons in H4 as (_ & H4 & _).
  apply N.eqb_neq in H4. rewrite N.eqb_sym, H4. reflexivity.
Qed.

End SanitizeMore.

Section Residue.

Lemma literal_exact p : forall s r, literal p s = Some r -> s = p ++ r.
Proof.
  induction p as [|a p IH]; intros s r H.
  - cbn in H. injection H as ->. reflexivity.
  - destruct s as [|c s]; [discriminate|]. cbn [literal] in H.
    destruct (N.eqb_spec a c) as [<-|]; [|discriminate].
    cbn [app]. f_equal. auto.
Qed.

Lemma literal_app p r : literal p (p ++ r) = Some r.
Proof.
  induction p as [|a p IH]; [destruct r; reflexivity|].
  cbn [app literal]. rewrite N.eqb_refl. exact IH.
Qed.

Lemma digits_prefix s :
  exists k, forallb is_digit k = true /\ s = k ++ digits s.
Proof.
  induction s as [|c s (k & Hk & IH)]; [exists []; split; reflexivity|].
  cbn [digits]. destruct (is_digit c) eqn:E.
  - exists (c :: k). split; [cbn [forallb]; rewrite E, Hk; reflexivity|].
    cbn [app]. f_equal. exact IH.
  - exists []. split; reflexivity.
Qed.

Lemma digits_app ds r :
  forallb is_digit ds = true -> digits (ds ++ SP :: r) = SP :: r.
Proof.
  induction ds as [|d ds IH]; [reflexivity|].
  cbn [forallb app digits]. intros H. apply andb_true_iff in H as [Hd H].
  rewrite Hd. auto.
Qed.

Lemma is_digit_not c : is_digit c = true -> (c =? LT)%N = false /\ (32 =? c)%N = false.
Proof.
  unfold is_digit, LT. rewrite andb_true_iff, !N.leb_le. intros [H1 H2].
  split; apply N.eqb_neq; lia.
Qed.

(** A match is at least two characters long. *)
Lemma match_here_two s rest :
  match_here s = Some rest -> (length rest + 2 <= length s)%nat.
Proof.
  unfold match_here. intros H.
  destruct (tag s) as [r|] eqn:Et.
  - injection H as ->. destruct s as [|c s]; [discriminate|]. cbn [tag] in Et.
    destruct (c =? LT)%N; [|discriminate].
    apply lazy_until_gt_shorter in Et. simpl. lia.
  - destruct (quot s) as [r|] eqn:Eq.
    + injection H as ->. apply literal_shorter in Eq. simpl in Eq. lia.
    + unfold numbering in H. destruct s as [|c s]; [discriminate|].
      destruct (is_digit c); [|discriminate].
      apply literal_shorter in H. pose proof (digits_shorter s). simpl in *. lia.
Qed.

Lemma fixed_unmatched s : sanitize s = s -> unmatched s.
Proof.
  induction s as [|c r IH]; [intros _; exact I|].
  rewrite sanitize_cons. destruct (match_here (c :: r)) as [rest|] eqn:E.
  - intros H. exfalso. apply (f_equal (@length N)) in H.
    apply match_here_two in E. pose proof (replace_all_length (length rest) rest) as Hl.
    unfold sanitize in H. simpl in *. lia.
  - intros H. injection H as H. split; [exact E|auto].
Qed.

Lemma unmatched_at pre : forall t, unmatched (pre ++ t) -> match_here t = None.
Proof.
  induction pre as [|c pre IH]; intros t H.
  - destruct t as [|c r]; [reflexivity|]. exact (proj1 H).
  - cbn [app unmatched] in H. apply IH, H.
Qed.

Lemma occurs_quot_matched s : occurs_quot s -> ~ unmatched s.
Proof.
  intros (pre & post & ->) H. apply unmatched_at in H.
  unfold match_here, quot in H. rewrite literal_app in H.
  destruct (tag _); discriminate.
Qed.

Lemma occurs_numbering_matched s : occurs_numbering s -> ~ unmatched s.
Proof.
  intros (pre & ds & post & Hne & Hds & ->) H. apply unmatched_at in H.
  destruct ds as [|d ds]; [congruence|].
  cbn [forallb] in Hds. apply andb_true_iff in Hds as [Hd Hds].
  destruct (is_digit_not d Hd) as [H1 H2].
  unfold match_here, tag, quot, numbering in H. cbn [app] in H.
  rewrite H1, Hd in H.
  change (lit " &quot;") with (32 :: lit "&quot;")%N in H.
  cbn [literal] in H. rewrite H2 in H.
  change (lit " - " ++ post) with (SP :: (45 :: 32 :: post))%N in H.
  rewrite (digits_app ds _ Hds) in H.
  change (SP :: 45 :: 32 :: post)%N with (lit " - " ++ post) in H.
  rewrite literal_app in H. discriminate.
Qed.

Lemma token_free_unmatched s :
  tag_free s -> ~ occurs_quot s -> ~ occurs_numbering s -> unmatched s.
Proof.
  induction s as [|c r IH]; [intros; exact I|].
  intros [Ht Hfree] Hq Hn. split.
  - unfold match_here. rewrite Ht.
    destruct (quot (c :: r)) as [post|] eqn:Eq.
    + exfalso. apply Hq. exists [], post. apply literal_exact in Eq. exact Eq.
    + unfold numbering. destruct (is_digit c) eqn:Ed; [|reflexivity].
      destruct (literal _ (digits r)) as [post|] eqn:El; [|reflexivity].
      exfalso. apply Hn. destruct (digits_prefix r) as (k & Hk & Hr).
      exists [], (c :: k), post. split; [discriminate|]. split.
      * cbn [forallb]. rewrite Ed, Hk. reflexivity.
      * apply literal_exact in El. cbn [app]. f_equal. rewrite <- El. exact Hr.
  - apply IH; [exact Hfree| |].
    + intros (pre & post & ->). apply Hq. exists (c :: pre), post. reflexivity.
    + intros (pre & ds & post & H1 & H2 & ->). apply Hn.
      exists (c :: pre), ds, post. auto.
Qed.

End Residue.

(** C7, as amended: sanitizing the sanitized text changes nothing
    exactly when the sanitized text holds no [ &quot;] and no numbering
    prefix, digits followed by [ - ]; no tag is ever left in it. *)
Theorem sanitize_idempotent_iff (x : text) :
  sanitize (sanitize x) = sanitize x <->
  ~ occurs_quot (sanitize x) /\ ~ occurs_numbering (sanitize x).
Proof.
  split.
  - intros H. apply fixed_unmatched in H. split; intros Ho.
    + exact (occurs_quot_matched _ Ho H).
    + exact (occurs_numbering_matched _ Ho H).
  - intros [Hq Hn]. apply unmatched_fixed, token_free_unmatched; try assumption.
    apply (sanitize_tag_free_fuel (length x)). lia.
Qed.

(** The text of the scenario and a text with a numbering prefix are
    sanitized to texts that a second pass leaves as they are. *)
Example sanitize_twice_scenario :
  sanitize (sanitize (lit "<b>3 - text &quot;here</b>")) =
    sanitize (lit "<b>3 - text &quot;here</b>") /\
  sanitize (sanitize (lit "3 - text")) = sanitize (lit "3 - text").
Proof. split; vm_compute; reflexivity. Qed.

(** X1: after the replacement no tag is left: at no position of the
    sanitized text does [<(?:.|\n)*?>] match. *)
Theorem sanitize_tag_free (s : text) : tag_free (sanitize s).
Proof. apply (sanitize_tag_free_fuel (length s)). lia. Qed.

(** X2: the replacement never makes a text longer, and every character
    of the result is a space or a character of the text. *)
Theorem sanitize_shrinks (s : text) :
  (length (sanitize s) <= length s)%nat /\
  forall c, In c (sanitize s) -> c = SP \/ In c s.
Proof.
  split; [apply replace_all_length|apply replace_all_chars].
Qed.

(** X3: a text without ['<'], without ['&'] and without digits is left
    as it is. *)
Theorem sanitize_markless (s : text) :
  markless s = true -> sanitize s = s.
Proof. intros H. apply unmatched_fixed, markless_unmatched, H. Qed.

Lemma sanitize_markless_witness :
  markless (lit "a > b, c; d
e") = true /\
  sanitize (lit "a > b, c; d
e") = lit "a > b, c; d
e".
Proof.
  split; [reflexivity|].
  apply (sanitize_markless (lit "a > b, c; d
e")). reflexivity.
Defined.

(** ** The preparations *)

Section Split.

Lemma split_not_nil sep s : split sep s <> [].
Proof.
  destruct s as [|c r]; cbn [split]; [discriminate|].
  destruct (c =? sep)%N; [discriminate|].
  destruct (split sep r); discriminate.
Qed.

Lemma join_nil_cons piece rest : join [] (piece :: rest) = piece ++ join [] rest.
Proof.
  destruct rest as [|p rest]; cbn [join]; [rewrite app_nil_r|]; reflexivity.
Qed.

Lemma join_split_filter sep s :
  join [] (split sep s) = List.filter (fun c => negb (c =? sep)%N) s.
Proof.
  induction s as [|c r IH]; [reflexivity|].
  cbn [split List.filter]. destruct (c =? sep)%N; cbn [negb].
  - rewrite join_nil_cons. exact IH.
  - destruct (split sep r) as [|piece pieces] eqn:E.
    + exfalso. exact (split_not_nil _ _ E).
    + rewrite join_nil_cons in IH |- *. cbn [app]. rewrite IH. reflexivity.
Qed.

Lemma split_app sep a b :
  split sep (a ++ sep :: b) = split sep a ++ split sep b.
Proof.
  induction a as [|c a IH]; cbn [app split].
  - rewrite N.eqb_refl. reflexivity.
  - destruct (c =? sep)%N; [rewrite IH; reflexivity|].
    rewrite IH. destruct (split sep a) as [|piece pieces] eqn:E.
    + exfalso. exact (split_not_nil _ _ E).
    + reflexivity.
Qed.

Lemma split_one sep x : ~ In sep x -> split sep x = [x].
Proof.
  induction x as [|c x IH]; [reflexivity|].
  intros H. cbn [split]. destruct (N.eqb_spec c sep) as [->|Hne].
  - exfalso. apply H. left. reflexivity.
  - rewrite IH; [reflexivity|]. intros Hin. apply H. right. exact Hin.
Qed.

Lemma split_pieces sep s : Forall (fun piece => ~ In sep piece) (split sep s).
Proof.
  induction s as [|c r IH]; cbn [split].
  - constructor; [intros []|constructor].
  - destruct (N.eqb_spec c sep) as [->|Hne].
    + constructor; [intros []|exact IH].
    + destruct (split sep r) as [|piece pieces]; [repeat constructor; intros [?|[]]; congruence|].
      inversion IH as [|? ? Hp Hps]; subst. constructor; [|exact Hps].
      intros [?|?]; [congruence|auto].
Qed.

Lemma dirName_last_piece d pieces x :
  split SLASH d = pieces ++ [x] -> dirName d = x.
Proof.
  intros H. unfold dirName. rewrite H, length_app. cbn [length].
  replace (length pieces + 1)%nat with (S (length pieces)) by lia.
  cbn [Nat.eqb]. replace (S (length pieces) - 1)%nat with (length pieces) by lia.
  unfold nth_default. rewrite nth_error_app2 by lia.
  rewrite Nat.sub_diag. reflexivity.
Qed.

Lemma dirName_no_slash d : ~ In SLASH (dirName d).
Proof.
  destruct (exists_last (split_not_nil SLASH d)) as (pieces & x & H).
  rewrite (dirName_last_piece _ _ _ H).
  pose proof (split_pieces SLASH d) as Hall. rewrite H in Hall.
  apply Forall_app in Hall as [_ Hx]. inversion Hx; assumption.
Qed.

End Split.

(** X4: the characters of the class are those of [tashkeel.txt] without
    the line feeds, in their order; no line feed is among them. *)
Theorem tashkeel_of_filter (tashkeelContent : text) :
  tashkeel_of tashkeelContent =
    List.filter (fun c => negb (c =? LF)%N) tashkeelContent /\
  ~ In LF (tashkeel_of tashkeelContent).
Proof.
  unfold tashkeel_of. rewrite join_split_filter. split; [reflexivity|].
  intros H. apply filter_In in H as [_ H]. rewrite N.eqb_refl in H. discriminate.
Qed.

(** X5: the name of the output directory is what follows the last ['/']
    of the directory given, and the whole of it when there is none. *)
Theorem dirName_after_last_slash (pre x : text) :
  ~ In SLASH x ->
  dirName (pre ++ SLASH :: x) = x /\ dirName x = x.
Proof.
  intros H. split.
  - apply (dirName_last_piece _ (split SLASH pre)).
    rewrite split_app, (split_one _ _ H). reflexivity.
  - apply (dirName_last_piece _ []). rewrite (split_one _ _ H). reflexivity.
Qed.

Lemma dirName_after_last_slash_witness :
  dirName (lit "source/books/1681") = lit "1681" /\
  dirName (lit "1681") = lit "1681".
Proof.
  apply (dirName_after_last_slash (lit "source/books") (lit "1681")).
  vm_compute. intros H. repeat (destruct H as [H|H]; [discriminate H|]). exact H.
Defined.

(** X6: whatever the directory given, two directories are created,
    [processed/] and in it the one named by the last component; the
    nesting of the directory given is not kept. *)
Theorem created_two (directory : text) :
  created (outputDir directory) =
  [lit "processed/"; lit "processed/" ++ dirName directory ++ [SLASH]].
Proof.
  unfold created, outputDir.
  assert (E : lit "processed/" ++ dirName directory =
              lit "processed" ++ SLASH :: dirName directory).
  { change (lit "processed/") with (lit "processed" ++ [SLASH]).
    rewrite <- app_assoc. reflexivity. }
  assert (Hp : ~ In SLASH (lit "processed")).
  { vm_compute. intros H. repeat (destruct H as [H|H]; [discriminate H|]). exact H. }
  rewrite E, split_app, (split_one _ _ Hp),
    (split_one _ _ (dirName_no_slash directory)).
  cbn [app fold_left snd].
  reflexivity.
Qed.

(** ** The navigation bar, continued *)

Section Sorting.

Context {A : Type} `{Entry A}.

Lemma sortCallback_le (a b : A) :
  Nav.sortCallback a b <= 0 <-> page b <= page a.
Proof.
  unfold Nav.sortCallback, parseInt.
  destruct (Z.ltb_spec (page a) (page b)); [lia|].
  destruct (Z.gtb_spec (page a) (page b)); lia.
Qed.

Lemma insert_permutation (a : A) l :
  Permutation (Nav.insert Nav.sortCallback a l) (a :: l).
Proof.
  induction l as [|b l IH]; [reflexivity|].
  cbn [Nav.insert]. destruct (Nav.sortCallback a b <=? 0); [reflexivity|].
  rewrite IH. apply perm_swap.
Qed.

Lemma sort_permutation (l : list A) :
  Permutation (Nav.sort Nav.sortCallback l) l.
Proof.
  induction l as [|a l IH]; [reflexivity|].
  cbn [Nav.sort fold_right]. fold (Nav.sort Nav.sortCallback l).
  rewrite insert_permutation, IH. reflexivity.
Qed.

Lemma insert_descending (a : A) l :
  descending l -> descending (Nav.insert Nav.sortCallback a l).
Proof.
  induction 1 as [|b l Hs IH Hb]; [repeat constructor|].
  cbn [Nav.insert]. destruct (Z.leb_spec (Nav.sortCallback a b) 0) as [Hle|Hgt].
  - apply sortCallback_le in Hle. constructor; [constructor; assumption|].
    constructor; [exact Hle|].
    rewrite List.Forall_forall in Hb |- *. intros x Hx. specialize (Hb x Hx). lia.
  - constructor; [exact IH|].
    assert (Hab : page a <= page b).
    { destruct (Z.le_gt_cases (page a) (page b)) as [?|Hlt]; [assumption|].
      exfalso. assert (Nav.sortCallback a b <= 0) by (apply sortCallback_le; lia). lia. }
    apply List.Forall_forall. intros x Hx.
    apply (Permutation_in _ (insert_permutation a l)) in Hx.
    destruct Hx as [<-|Hx]; [exact Hab|].
    rewrite List.Forall_forall in Hb. exact (Hb x Hx).
Qed.

Lemma sort_descending (l : list A) : descending (Nav.sort Nav.sortCallback l).
Proof.
  induction l as [|a l IH]; [constructor|].
  cbn [Nav.sort fold_right]. apply insert_descending. exact IH.
Qed.

(** Descending arrays with pairwise different pages are strictly
    descending, and two of them with the same elements are equal. *)
Lemma descending_strict (l : list A) :
  descending l -> List.NoDup (map page l) ->
  StronglySorted (fun a b => page b < page a) l.
Proof.
  induction 1 as [|a l Hs IH Ha]; [constructor|].
  cbn [map]. intros Hnd. inversion Hnd as [|? ? Hnotin Hnd']; subst.
  constructor; [auto|].
  rewrite List.Forall_forall in Ha |- *. intros x Hx. specialize (Ha x Hx).
  assert (page x <> page a); [|lia].
  intros E. apply Hnotin. rewrite <- E. apply in_map. exact Hx.
Qed.

Lemma strict_unique (l1 : list A) : forall l2,
  StronglySorted (fun a b => page b < page a) l1 ->
  StronglySorted (fun a b => page b < page a) l2 ->
  Permutation l1 l2 -> l1 = l2.
Proof.
  induction l1 as [|a l1 IH]; intros l2 H1 H2 Hp.
  - apply Permutation_nil in Hp. congruence.
  - destruct l2 as [|b l2]; [apply Permutation_sym, Permutation_nil in Hp; discriminate|].
    inversion H1 as [|? ? Hs1 Ha]; inversion H2 as [|? ? Hs2 Hb]; subst.
    rewrite List.Forall_forall in Ha, Hb.
    assert (a = b) as <-.
    { assert (Hin1 : In a (b :: l2)) by (apply (Permutation_in _ Hp); left; reflexivity).
      assert (Hin2 : In b (a :: l1))
        by (apply (Permutation_in _ (Permutation_sym Hp)); left; reflexivity).
      destruct Hin1 as [?|Hin1]; [congruence|].
      destruct Hin2 as [?|Hin2]; [congruence|].
      specialize (Ha _ Hin2). specialize (Hb _ Hin1). lia. }
    f_equal. apply IH; try assumption. exact (Permutation_cons_inv Hp).
Qed.

Lemma sort_unique (l1 l2 : list A) :
  Permutation l1 l2 -> List.NoDup (map page l1) ->
  Nav.sort Nav.sortCallback l1 = Nav.sort Nav.sortCallback l2.
Proof.
  intros Hp Hnd.
  assert (Hnd1 : List.NoDup (map page (Nav.sort Nav.sortCallback l1))).
  { eapply Permutation_NoDup; [|exact Hnd].
    apply Permutation_map, Permutation_sym, sort_permutation. }
  assert (Hnd2 : List.NoDup (map page (Nav.sort Nav.sortCallback l2))).
  { eapply Permutation_NoDup; [|exact Hnd].
    apply Permutation_map. rewrite Hp. apply Permutation_sym, sort_permutation. }
  apply strict_unique.
  - apply descending_strict; [apply sort_descending|exact Hnd1].
  - apply descending_strict; [apply sort_descending|exact Hnd2].
  - rewrite !sort_permutation. exact Hp.
Qed.

Lemma ascending_app_r_desc (l1 l2 : list A) :
  descending (l1 ++ l2) -> descending l2.
Proof.
  induction l1 as [|a l1 IH]; [auto|].
  cbn [app]. intros Hs. inversion Hs; subst. auto.
Qed.

End Sorting.

(** X7: after the sort the books are in descending order of their
    pages, and so are the chapters of every book; the books are those
    scrapped, each with the chapters it had. *)
Theorem sortReference_descending (searchReference : list Nav.Book) :
  descending (Nav.sortReference searchReference) /\
  Forall (fun b => descending (Nav.chapters b)) (Nav.sortReference searchReference) /\
  Permutation (Nav.sortReference searchReference) (map sorted_book searchReference) /\
  forall b : Nav.Book,
    name (sorted_book b) = name b /\ page (sorted_book b) = page b /\
    Permutation (Nav.chapters (sorted_book b)) (Nav.chapters b).
Proof.
  assert (E : Nav.sortReference searchReference =
              map sorted_book (Nav.sort Nav.sortCallback searchReference))
    by reflexivity.
  rewrite E. clear E. repeat split.
  - pose proof (sort_descending searchReference) as Hs.
    induction Hs as [|a l Hs IH Ha]; [constructor|].
    cbn [map]. constructor; [exact IH|].
    apply List.Forall_forall. intros x Hx.
    apply in_map_iff in Hx as (y & <- & Hy).
    rewrite List.Forall_forall in Ha. exact (Ha y Hy).
  - apply List.Forall_forall. intros x Hx.
    apply in_map_iff in Hx as (y & <- & _). apply sort_descending.
  - apply Permutation_map, sort_permutation.
  - apply sort_permutation.
Qed.

(** X8: the order in which the books were scrapped does not matter: two
    arrays with the same books, of pairwise different pages, are sorted
    to the same reference. *)
Theorem sortReference_order (books1 books2 : list Nav.Book) :
  Permutation books1 books2 ->
  List.NoDup (map page books1) ->
  Nav.sortReference books1 = Nav.sortReference books2.
Proof.
  intros Hp Hnd. unfold Nav.sortReference.
  rewrite (sort_unique books1 books2 Hp Hnd). reflexivity.
Qed.

Lemma sortReference_order_witness :
  Nav.sortReference [book_1; book_20] = Nav.sortReference [book_20; book_1].
Proof.
  apply (sortReference_order [book_1; book_20] [book_20; book_1]).
  - apply perm_swap.
  - repeat constructor; cbn; intros H; repeat (destruct H as [H|H]; [discriminate H|]); exact H.
Defined.

(** X9: with books and chapters in descending order the lookup gives
    the latest book that begins at or before the part and has a chapter
    that does, and the latest such chapter of that book. *)
Theorem getChapterBook_latest (books : list Nav.Book) (partNo : Z)
    (b : Nav.Book) (c : Nav.Chapter) :
  descending books ->
  Forall (fun b' => descending (Nav.chapters b')) books ->
  Nav.getChapterBook books partNo = Nav.mkChapterBook (Some b) (Some c) ->
  page b <= partNo /\ page c <= partNo /\ In b books /\ In c (Nav.chapters b) /\
  (forall c' : Nav.Chapter,
      In c' (Nav.chapters b) -> page c' <= partNo -> page c' <= page c) /\
  (forall (b' : Nav.Book) (c' : Nav.Chapter),
      In b' books -> In c' (Nav.chapters b') ->
      page b' <= partNo -> page c' <= partNo -> page b' <= page b).
Proof.
  intros Hbooks Hchapters Hres. rewrite getChapterBook_callbacks in Hres.
  destruct (some_books partNo books (Nav.mkChapterBook None None))
    as [[_ Hs]|(pre & b0 & post & cpre & c0 & cpost & -> & Hch & Hpre & Hb & Hcpre & Hc & Hs)];
    rewrite Hs in Hres; cbn [snd] in Hres; [discriminate|].
  injection Hres as <- <-.
  assert (Hin : In b0 (pre ++ b0 :: post)) by (apply in_or_app; right; left; reflexivity).
  repeat split; try assumption.
  - rewrite Hch. apply in_or_app. right. left. reflexivity.
  - intros c' Hc' Hle. rewrite Hch in Hc'. apply in_app_or in Hc' as [Hc'|[<-|Hc']].
    + rewrite List.Forall_forall in Hcpre. specialize (Hcpre _ Hc'). lia.
    + lia.
    + rewrite List.Forall_forall in Hchapters. specialize (Hchapters _ Hin).
      rewrite Hch in Hchapters. apply ascending_app_r_desc in Hchapters.
      inversion Hchapters as [|? ? _ Hall]; subst.
      rewrite List.Forall_forall in Hall. exact (Hall _ Hc').
  - intros b' c' Hb' Hc' Hle Hcle. apply in_app_or in Hb' as [Hb'|[<-|Hb']].
    + rewrite List.Forall_forall in Hpre. destruct (Hpre _ Hb') as [Hlt|Hall]; [lia|].
      rewrite List.Forall_forall in Hall. specialize (Hall _ Hc'). lia.
    + lia.
    + apply ascending_app_r_desc in Hbooks.
      inversion Hbooks as [|? ? _ Hall]; subst.
      rewrite List.Forall_forall in Hall. exact (Hall _ Hb').
Qed.

Lemma getChapterBook_latest_witness :
  let books := Nav.sortReference scenario_books in
  let b := sorted_book book_1 in
  let c := Nav.mkChapter (lit "chapter 10") 10 in
  page b <= 15 /\ page c <= 15 /\ In b books /\ In c (Nav.chapters b) /\
  (forall c' : Nav.Chapter,
      In c' (Nav.chapters b) -> page c' <= 15 -> page c' <= page c) /\
  (forall (b' : Nav.Book) (c' : Nav.Chapter),
      In b' books -> In c' (Nav.chapters b') ->
      page b' <= 15 -> page c' <= 15 -> page b' <= page b).
Proof.
  apply (getChapterBook_latest (Nav.sortReference scenario_books) 15).
  - unfold descending. repeat constructor; cbn; lia.
  - repeat constructor; cbn; lia.
  - reflexivity.
Defined.

(** X10: when the lookup finds a book for a part, it finds one for
    every later part. *)
Theorem getChapterBook_found_later (books : list Nav.Book) (p q : Z) :
  p <= q ->
  Nav.book (Nav.getChapterBook books p) <> None ->
  Nav.book (Nav.getChapterBook books q) <> None.
Proof.
  intros Hpq Hp. rewrite getChapterBook_callbacks in Hp |- *.
  destruct (some_books p books (Nav.mkChapterBook None None))
    as [[_ Hs]|(pre & b & post & cpre & c & cpost & -> & Hch & _ & Hb & _ & Hc & _)];
    [rewrite Hs in Hp; contradiction|].
  destruct (some_books q (pre ++ b :: post) (Nav.mkChapterBook None None))
    as [[Hall Hs]|(? & ? & ? & ? & ? & ? & _ & _ & _ & _ & _ & _ & Hs)];
    rewrite Hs; cbn [snd Nav.book]; [|discriminate].
  exfalso. rewrite List.Forall_forall in Hall.
  destruct (Hall b ltac:(apply in_or_app; right; left; reflexivity)) as [Hlt|Hnone].
  - lia.
  - rewrite List.Forall_forall in Hnone.
    specialize (Hnone c ltac:(rewrite Hch; apply in_or_app; right; left; reflexivity)).
    lia.
Qed.

Lemma getChapterBook_found_later_witness :
  Nav.book (Nav.getChapterBook (Nav.sortReference scenario_books) 20) <> None.
Proof.
  apply (getChapterBook_found_later (Nav.sortReference scenario_books) 15 20).
  - lia.
  - discriminate.
Defined.

(** ** The sequential processor, continued *)

Section SequentialLoop.

Variable tashkeel : N -> bool.

Lemma readPart_missing i d :
  source d !! i = None -> Sequential.readPart tashkeel i d = (d, None).
Proof.
  intros H. unfold Sequential.readPart, bind, readFile. rewrite H. reflexivity.
Qed.

(** The last file, when it is no hadith: it is written, and reading the
    file after it throws. *)
Lemma categorize_header_last i v d p :
  Sequential.nextPart v = Empty \/
    Sequential.nextPart v = Full (sanitized tashkeel p) ->
  source d !! i = Some p ->
  truthy (hadith p) = false ->
  source d !! (i + 1) = None ->
  Sequential.categorize tashkeel i v d =
  (mkDisk (source d) (<[i := sanitized tashkeel p]> (processed d))
          (writes d ++ [(i, sanitized tashkeel p)]),
   None).
Proof.
  intros Hn Hs Hh Hq. unfold Sequential.categorize.
  rewrite (bind_ok _ _ _ _ _ (cached_source tashkeel i d p _ Hn Hs)).
  rewrite sanitized_hadith, Hh.
  rewrite (bind_ok _ _ _ _ tt eq_refl).
  apply bind_throw. apply readPart_missing. exact Hq.
Qed.

Lemma header_of_next src i o :
  header_of tashkeel src i o -> header_of tashkeel src (i + 1) o.
Proof.
  intros [->|(j & p & Hj & Hp & Hh & ->)]; [left; reflexivity|].
  right. exists j, p. repeat split; try assumption; lia.
Qed.

Lemma header_of_first_or src i o p :
  1 <= i -> src !! i = Some p -> truthy (hadith p) = false ->
  header_of tashkeel src i o ->
  header_of tashkeel src (i + 1) (Sequential.first_or o (sanitized tashkeel p)).
Proof.
  intros Hi Hp Hh Ho. unfold Sequential.first_or.
  destruct (has_id o); [apply header_of_next, Ho|].
  right. exists i, p. repeat split; try assumption; lia.
Qed.

(** One iteration from a state of the loop: what it writes is right,
    and when it does not throw the next state is one of the loop. *)
Lemma categorize_step i v d d' r :
  loop_state tashkeel (source d) i v ->
  Sequential.categorize tashkeel i v d = (d', r) ->
  source d' = source d /\
  (exists ws, writes d' = writes d ++ ws /\
              Forall (written_ok tashkeel (source d)) ws /\
              (length ws <= 1)%nat /\
              (is_Some (source d !! i) -> map fst ws = [i])) /\
  (forall v', r = Some v' -> loop_state tashkeel (source d) (i + 1) v') /\
  (r = None <->
   source d !! i = None \/
   exists p, source d !! i = Some p /\ truthy (hadith p) = false /\
             source d !! (i + 1) = None).
Proof.
  intros (Hi & Hc & Hb & Hch & Hf) Hrun.
  destruct (source d !! i) as [p|] eqn:Hp.
  - assert (Hc' : Sequential.nextPart v = Empty \/
                  Sequential.nextPart v = Full (sanitized tashkeel p)).
    { destruct Hc as [?|(p' & Hp' & ?)]; [left; assumption|right; congruence]. }
    destruct (truthy (hadith p)) eqn:Hh.
    + rewrite (categorize_hadith tashkeel i v d p Hc' Hp Hh) in Hrun.
      injection Hrun as <- <-. cbn [source writes]. split; [reflexivity|].
      split; [|split].
      * eexists. split; [reflexivity|]. split; [|split; [cbn; lia|reflexivity]].
        constructor; [|constructor]. exists p. cbn [fst snd].
        split; [exact Hp|]. rewrite Hh. eauto.
      * intros v' [= <-]. split; [lia|]. cbn.
        split; [left; reflexivity|].
        repeat split; try (apply header_of_next; assumption). left. reflexivity.
      * split; [discriminate|]. intros [?|(p' & [= <-] & ? & _)]; congruence.
    + destruct (source d !! (i + 1)) as [q|] eqn:Hq.
      * rewrite (categorize_header tashkeel i v d p q Hc' Hp Hh Hq) in Hrun.
        injection Hrun as <- <-. cbn [source writes]. split; [reflexivity|].
        split; [|split].
        -- eexists. split; [reflexivity|]. split; [|split; [cbn; lia|reflexivity]].
           constructor; [|constructor]. exists p. cbn [fst snd].
           split; [exact Hp|]. rewrite Hh. reflexivity.
        -- intros v' [= <-]. split; [lia|].
           assert (Hself : header_of tashkeel (source d) (i + 1)
                             (Full (sanitized tashkeel p))).
           { right. exists i, p. repeat split; try assumption; lia. }
           destruct (truthy (hadith q)); [|destruct (strict_eq _ _)]; cbn;
             (split; [right; exists q; split; [exact Hq|reflexivity]|]);
             repeat split;
             try (apply header_of_next; assumption);
             try (apply header_of_first_or; assumption);
             try exact Hself.
        -- split; [destruct (truthy (hadith q)); [|destruct (strict_eq _ _)]; discriminate|].
           intros [?|(p' & _ & _ & ?)]; congruence.
      * rewrite (categorize_header_last i v d p Hc' Hp Hh Hq) in Hrun.
        injection Hrun as <- <-. cbn [source writes]. split; [reflexivity|].
        split; [|split].
        -- eexists. split; [reflexivity|]. split; [|split; [cbn; lia|reflexivity]].
           constructor; [|constructor]. exists p. cbn [fst snd].
           split; [exact Hp|]. rewrite Hh. reflexivity.
        -- intros v' [=].
        -- split; [|reflexivity]. intros _. right. exists p. auto.
  - destruct Hc as [Hc|(p' & Hp' & _)]; [|congruence].
    unfold Sequential.categorize in Hrun. rewrite Hc in Hrun.
    cbn [Sequential.cached] in Hrun.
    rewrite (bind_throw _ _ _ _ (readPart_missing i d Hp)) in Hrun.
    injection Hrun as <- <-. split; [reflexivity|].
    split; [|split].
    + exists []. rewrite app_nil_r. repeat split; [constructor|cbn; lia|].
      intros [? [=]].
    + intros v' [=].
    + split; [|reflexivity]. intros _. left. reflexivity.
Qed.

Lemma for_loop_writes n : forall i v d d' r,
  loop_state tashkeel (source d) i v ->
  for_loop n i (Sequential.categorize tashkeel) v d = (d', r) ->
  source d' = source d /\
  exists ws, writes d' = writes d ++ ws /\
             Forall (written_ok tashkeel (source d)) ws.
Proof.
  induction n as [|n IH]; intros i v d d' r Hst Hrun.
  - cbn in Hrun. unfold ret in Hrun. injection Hrun as <- <-.
    split; [reflexivity|]. exists []. rewrite app_nil_r. split; constructor.
  - cbn [for_loop] in Hrun. unfold bind in Hrun.
    destruct (Sequential.categorize tashkeel i v d) as [d1 r1] eqn:E.
    destruct (categorize_step _ _ _ _ _ Hst E)
      as (Hsrc & (ws & Hws & Hok & _ & _) & Hnext & _).
    destruct r1 as [v1|].
    + rewrite <- Hsrc in Hnext. destruct (IH _ _ _ _ _ (Hnext v1 eq_refl) Hrun)
        as (Hsrc' & ws' & Hws' & Hok').
      split; [congruence|]. exists (ws ++ ws').
      rewrite Hws', Hws, app_assoc. split; [reflexivity|].
      apply Forall_app. split; [exact Hok|]. rewrite <- Hsrc. exact Hok'.
    + injection Hrun as <- <-. split; [exact Hsrc|]. exists ws. auto.
Qed.

Lemma loop_state_init src : loop_state tashkeel src 1 Sequential.init.
Proof.
  split; [lia|]. split; [left; reflexivity|].
  repeat split; left; reflexivity.
Qed.

(** The loop over files that are all there, the one after them missing. *)
Lemma for_loop_dense n : forall i v d d' r,
  loop_state tashkeel (source d) i v ->
  (forall j, i <= j < i + Z.of_nat n -> is_Some (source d !! j)) ->
  source d !! (i + Z.of_nat n) = None ->
  for_loop n i (Sequential.categorize tashkeel) v d = (d', r) ->
  (exists ws, writes d' = writes d ++ ws /\
              map fst ws = map (fun k => i + Z.of_nat k) (seq 0 n)) /\
  (r = None <->
   exists p, source d !! (i + Z.of_nat n - 1) = Some p /\
             (0 < n)%nat /\ truthy (hadith p) = false).
Proof.
  induction n as [|n IH]; intros i v d d' r Hst Hall Hend Hrun.
  - cbn in Hrun. unfold ret in Hrun. injection Hrun as <- <-.
    split; [exists []; rewrite app_nil_r; split; reflexivity|].
    split; [discriminate|]. intros (p & _ & Hn & _). lia.
  - cbn [for_loop] in Hrun. unfold bind in Hrun.
    destruct (Sequential.categorize tashkeel i v d) as [d1 r1] eqn:E.
    destruct (categorize_step _ _ _ _ _ Hst E)
      as (Hsrc & (ws & Hws & _ & _ & Hfst) & Hnext & Hthrow).
    specialize (Hfst (Hall i ltac:(lia))).
    destruct (Hall i ltac:(lia)) as [p Hp].
    destruct r1 as [v1|].
    + rewrite <- Hsrc in Hnext.
      destruct (IH (i + 1) v1 d1 d' r (Hnext v1 eq_refl)) as ((ws' & Hws' & Hfst') & Hr).
      { intros j Hj. rewrite Hsrc. apply Hall. lia. }
      { rewrite Hsrc. replace (i + 1 + Z.of_nat n) with (i + Z.of_nat (S n)) by lia.
        exact Hend. }
      { exact Hrun. }
      split.
      * exists (ws ++ ws'). rewrite Hws', Hws, app_assoc. split; [reflexivity|].
        rewrite map_app, Hfst, Hfst'. cbn [seq map app]. rewrite Z.add_0_r.
        f_equal. rewrite <- seq_shift, map_map. apply map_ext. intros k. lia.
      * rewrite Hr, Hsrc.
        replace (i + 1 + Z.of_nat n - 1) with (i + Z.of_nat (S n) - 1) by lia.
        split.
        -- intros (q & Hq & Hn & Hh). exists q. repeat split; [exact Hq|lia|exact Hh].
        -- intros (q & Hq & _ & Hh). exists q. repeat split; [exact Hq| |exact Hh].
           destruct n as [|n]; [|lia]. exfalso.
           replace (i + Z.of_nat 1 - 1) with i in Hq by lia.
           destruct Hthrow as [_ Hthrow].
           assert (Some v1 = None); [|discriminate].
           apply Hthrow. right. exists q. repeat split; assumption.
    + injection Hrun as <- <-.
      destruct Hthrow as [Hthrow _]. destruct (Hthrow eq_refl)
        as [Hmiss|(q & Hq & Hh & Hlast)]; [congruence|].
      assert (n = 0%nat) as ->.
      { destruct n as [|n]; [reflexivity|]. exfalso.
        destruct (Hall (i + 1) ltac:(lia)) as [? ?]. congruence. }
      split.
      * exists ws. split; [exact Hws|]. rewrite Hfst. cbn. rewrite Z.add_0_r. reflexivity.
      * split; [|reflexivity]. intros _. exists q.
        replace (i + Z.of_nat 1 - 1) with i by lia. repeat split; [exact Hq|lia|exact Hh].
Qed.

(** Hadiths one after the other get the book and the chapter there are
    before the first of them. *)
Lemma for_loop_hadiths_from k : forall i v d,
  Sequential.nextPart v = Empty ->
  (forall j, i <= j < i + Z.of_nat k ->
             exists p, source d !! j = Some p /\ truthy (hadith p) = true) ->
  exists d',
    for_loop k i (Sequential.categorize tashkeel) v d =
      (d', Some (if (k =? 0)%nat then v
                 else Sequential.mkVars Empty (Sequential.book v)
                        (Sequential.chapter v) Empty)) /\
    forall j p, i <= j < i + Z.of_nat k -> source d !! j = Some p ->
      processed d' !! j =
      Some (attached tashkeel p (Sequential.book v) (Sequential.chapter v)).
Proof.
  induction k as [|k IH]; intros i v d Hn Hall.
  - exists d. split; [reflexivity|]. intros j p Hj. lia.
  - destruct (Hall i ltac:(lia)) as (p & Hp & Hh).
    cbn [for_loop].
    rewrite (bind_ok _ _ _ _ _ (categorize_hadith tashkeel i v d p (or_introl Hn) Hp Hh)).
    set (d1 := mkDisk _ _ _). set (v1 := Sequential.mkVars _ _ _ _).
    destruct (IH (i + 1) v1 d1 eq_refl) as (d' & Hrun & Hout).
    { intros j Hj. apply Hall. lia. }
    exists d'. split.
    + rewrite Hrun. cbn [Nat.eqb]. destruct (k =? 0)%nat; reflexivity.
    + intros j q Hj Hq. destruct (Z.eq_dec j i) as [->|Hne].
      * apply for_loop_frame in Hrun as [_ Hframe].
        rewrite Hframe by lia. subst d1. cbn [processed].
        rewrite lookup_insert_eq. congruence.
      * apply (Hout j q); [lia|exact Hq].
Qed.

End SequentialLoop.

(** X11: every file the sequential processor writes is a part of the
    scrapped directory as [readPart] returns it, under its own number; a
    part that is no hadith gets nothing more, a hadith gets a book and
    a chapter that are the empty object or earlier parts that are no
    hadiths. *)
Theorem sequential_writes (tashkeel : N -> bool) (d : disk) :
  exists ws,
    writes (fst (Sequential.run tashkeel d)) = writes d ++ ws /\
    Forall (written_ok tashkeel (source d)) ws.
Proof.
  unfold Sequential.run.
  destruct (for_loop _ _ _ _ d) as [d' r] eqn:E. cbn [fst].
  apply (for_loop_writes tashkeel) in E as [_ H]; [exact H|].
  apply loop_state_init.
Qed.

(** X12: on a directory with the files [1] to [N] and no other the
    sequential processor writes each of them once, in order; it throws
    exactly when the last part is no hadith, on reading the file after
    it. *)
Theorem sequential_dense (tashkeel : N -> bool) (d : disk) :
  dense d ->
  (exists ws,
      writes (fst (Sequential.run tashkeel d)) = writes d ++ ws /\
      map fst ws = map Z.of_nat (seq 1 (files_length d))) /\
  (snd (Sequential.run tashkeel d) = None <->
   exists p, source d !! Z.of_nat (files_length d) = Some p /\
             truthy (hadith p) = false).
Proof.
  intros Hd. unfold Sequential.run.
  destruct (for_loop _ _ _ _ d) as [d' r] eqn:E. cbn [fst snd].
  apply (for_loop_dense tashkeel) in E as [(ws & Hws & Hfst) Hr].
  - split.
    + exists ws. split; [exact Hws|]. rewrite Hfst, <- seq_shift, map_map.
      apply map_ext. intros k. lia.
    + rewrite Hr. replace (1 + Z.of_nat (files_length d) - 1)
        with (Z.of_nat (files_length d)) by lia.
      split.
      * intros (p & Hp & _ & Hh). eauto.
      * intros (p & Hp & Hh). exists p. repeat split; try assumption.
        assert (Hs : is_Some (source d !! Z.of_nat (files_length d))) by eauto.
        apply Hd in Hs. lia.
  - apply loop_state_init.
  - intros j Hj. apply Hd. lia.
  - destruct (source d !! (1 + Z.of_nat (files_length d))) eqn:Hs; [|reflexivity].
    assert (Hs' : is_Some (source d !! (1 + Z.of_nat (files_length d)))) by eauto.
    apply Hd in Hs'. lia.
Qed.

(** ** The scrapped directory and the frame of the runs *)

Section Directory.

Lemma files_from_lookup l : forall i j,
  files_from i l !! j =
  if decide (i <= j) then l !! Z.to_nat (j - i) else None.
Proof.
  induction l as [|p r IH]; intros i j; cbn [files_from].
  - rewrite lookup_empty. destruct (decide _); reflexivity.
  - destruct (decide (i = j)) as [->|Hne].
    + rewrite lookup_insert_eq. rewrite decide_True by lia.
      rewrite Z.sub_diag. reflexivity.
    + rewrite lookup_insert_ne by exact Hne. rewrite IH.
      destruct (decide (i + 1 <= j)); destruct (decide (i <= j)); try lia; [|reflexivity].
      replace (Z.to_nat (j - i)) with (S (Z.to_nat (j - (i + 1)))) by lia.
      reflexivity.
Qed.

Lemma files_from_size l : forall i, size (files_from i l) = length l.
Proof.
  induction l as [|p r IH]; intros i; cbn [files_from length].
  - apply map_size_empty.
  - rewrite map_size_insert_None; [rewrite IH; reflexivity|].
    rewrite files_from_lookup. apply decide_False. lia.
Qed.

Lemma scrapped_dense l : dense (scrapped l).
Proof.
  intros j. unfold scrapped, files_length. cbn [source].
  rewrite files_from_size, files_from_lookup.
  destruct (decide (1 <= j)) as [Hj|Hj].
  - rewrite lookup_lt_is_Some. lia.
  - split; [intros [? [=]]|lia].
Qed.

(** A loop whose body writes the file of its iteration only. *)
Lemma for_loop_frame_both {V} (body : Z -> V -> io V) :
  (forall i v d d' r, body i v d = (d', r) ->
     source d' = source d /\
     forall j, j <> i -> processed d' !! j = processed d !! j) ->
  forall n i v d d' r,
    for_loop n i body v d = (d', r) ->
    source d' = source d /\
    forall j, j < i \/ i + Z.of_nat n <= j -> processed d' !! j = processed d !! j.
Proof.
  intros Hbody. induction n as [|n IH]; intros i v d d' r H.
  - cbn in H. unfold ret in H. injection H as <- <-. auto.
  - cbn [for_loop] in H. unfold bind in H.
    destruct (body i v d) as [d1 [v1|]] eqn:E.
    + apply Hbody in E as [Hs Hp]. apply IH in H as [Hs' Hp'].
      split; [congruence|]. intros j Hj. rewrite Hp' by lia. apply Hp. lia.
    + injection H as <- <-. apply Hbody in E as [Hs Hp].
      split; [exact Hs|]. intros j Hj. apply Hp. lia.
Qed.

Lemma indexed_categorize_frame tashkeel searchReference i u d d' r :
  Indexed.categorize tashkeel searchReference i u d = (d', r) ->
  source d' = source d /\
  forall j, j <> i -> processed d' !! j = processed d !! j.
Proof.
  unfold Indexed.categorize, Indexed.processPart, Indexed.readPart,
    Indexed.member, bind, readFile, writeFile, ret, throw.
  intros H.
  repeat (case_match; simplify_eq; cbn [source processed] in * ); split; try reflexivity;
    intros j Hj; rewrite ?lookup_insert_ne by congruence; reflexivity.
Qed.

End Directory.

(** X13: in the output directory both processors write the files [1]
    to [N] only, [N] being the number of scrapped files: every other
    file of the output directory is after the run what it was before. *)
Theorem runs_frame (tashkeel : N -> bool) (searchReference : list Nav.Book)
    (d : disk) :
  let d1 := fst (Indexed.initCategorization tashkeel searchReference d) in
  let d2 := fst (Sequential.run tashkeel d) in
  forall j, j < 1 \/ Z.of_nat (files_length d) < j ->
    processed d1 !! j = processed d !! j /\
    processed d2 !! j = processed d !! j.
Proof.
  cbv zeta. unfold Indexed.initCategorization, Sequential.run.
  destruct (for_loop _ _ (Indexed.categorize _ _) _ d) as [d1 r1] eqn:E1.
  destruct (for_loop _ _ (Sequential.categorize _) _ d) as [d2 r2] eqn:E2.
  cbn [fst].
  apply for_loop_frame_both in E1 as [_ Hp1];
    [|apply indexed_categorize_frame].
  apply for_loop_frame_both in E2 as [_ Hp2];
    [|apply categorize_frame].
  intros j Hj. split; [apply Hp1|apply Hp2]; lia.
Qed.

Lemma runs_frame_witness :
  let d := mkDisk (files_from 1 apart_parts)
                  {[ 7 := raw 7 (lit "left from an earlier run") (Some 7) Null ]} [] in
  processed (fst (Indexed.initCategorization arabic_marks moslim_reference d)) !! 7 =
    processed d !! 7 /\
  processed (fst (Sequential.run arabic_marks d)) !! 7 = processed d !! 7.
Proof.
  apply (runs_frame arabic_marks moslim_reference
           (mkDisk (files_from 1 apart_parts)
                   {[ 7 := raw 7 (lit "left from an earlier run") (Some 7) Null ]} [])).
  right. vm_compute. reflexivity.
Defined.

Lemma sequential_dense_witness :
  (exists ws,
      writes (fst (Sequential.run arabic_marks (scrapped hadiths_first))) =
        writes (scrapped hadiths_first) ++ ws /\
      map fst ws = map Z.of_nat (seq 1 (files_length (scrapped hadiths_first)))) /\
  (snd (Sequential.run arabic_marks (scrapped hadiths_first)) = None <->
   exists p, source (scrapped hadiths_first)
               !! Z.of_nat (files_length (scrapped hadiths_first)) = Some p /\
             truthy (hadith p) = false).
Proof.
  apply (sequential_dense arabic_marks (scrapped hadiths_first)).
  apply scrapped_dense.
Defined.

(** ** The categorization theory of the sequential processor *)

(** X14: a part that is no hadith, followed by one with another
    [caption_id] that is no hadith either, followed by a hadith, no part
    of a definition at many parts being tracked: the hadith gets the
    first as its book and the second as its chapter. *)
Theorem book_then_chapter (tashkeel : N -> bool) (i : Z) (v : Sequential.vars)
    (d : disk) (p1 p2 p3 : part) :
  Sequential.nextPart v = Empty ->
  Sequential.firstPart v = Empty ->
  source d !! i = Some p1 ->
  source d !! (i + 1) = Some p2 ->
  source d !! (i + 1 + 1) = Some p3 ->
  truthy (hadith p1) = false ->
  truthy (hadith p2) = false ->
  truthy (hadith p3) = true ->
  strict_eq (caption_id p2) (caption_id p1) = false ->
  exists d' v',
    for_loop 3 i (Sequential.categorize tashkeel) v d = (d', Some v') /\
    processed d' !! i = Some (sanitized tashkeel p1) /\
    processed d' !! (i + 1) = Some (sanitized tashkeel p2) /\
    processed d' !! (i + 1 + 1) =
      Some (attached tashkeel p3 (Full (sanitized tashkeel p1))
                                 (Full (sanitized tashkeel p2))) /\
    Sequential.book v' = Full (sanitized tashkeel p1) /\
    Sequential.chapter v' = Full (sanitized tashkeel p2).
Proof.
  intros Hn Hf H1 H2 H3 Hh1 Hh2 Hh3 Hg.
  cbn [for_loop].
  rewrite (bind_ok _ _ _ _ _
             (categorize_header tashkeel i v d p1 p2 (or_introl Hn) H1 Hh1 H2)).
  rewrite Hh2, Hg, Hf.
  erewrite bind_ok
    by (apply (categorize_header tashkeel _ _ _ p2 p3); [right; reflexivity|assumption..]).
  rewrite Hh3.
  erewrite bind_ok
    by (apply (categorize_hadith tashkeel _ _ _ p3); [right; reflexivity|assumption..]).
  do 2 eexists. split; [reflexivity|].
  cbn [processed Sequential.book Sequential.chapter Sequential.firstPart
       Sequential.first_or has_id].
  rewrite lookup_insert_eq.
  rewrite !lookup_insert_ne by lia. rewrite lookup_insert_eq.
  rewrite !lookup_insert_ne by lia. rewrite lookup_insert_eq.
  repeat split.
Qed.

Lemma book_then_chapter_witness :
  exists d' v',
    for_loop 3 1 (Sequential.categorize arabic_marks) Sequential.init
      (scrapped (six_parts Num)) = (d', Some v') /\
    processed d' !! 1 = Some (sanitized arabic_marks (six_part Num 1 "book one" None)) /\
    processed d' !! (1 + 1) =
      Some (sanitized arabic_marks (six_part Num 2 "chapter one" None)) /\
    processed d' !! (1 + 1 + 1) =
      Some (attached arabic_marks (six_part Num 3 "1 - hadith" (Some 5))
              (Full (sanitized arabic_marks (six_part Num 1 "book one" None)))
              (Full (sanitized arabic_marks (six_part Num 2 "chapter one" None)))) /\
    Sequential.book v' = Full (sanitized arabic_marks (six_part Num 1 "book one" None)) /\
    Sequential.chapter v' =
      Full (sanitized arabic_marks (six_part Num 2 "chapter one" None)).
Proof.
  apply (book_then_chapter arabic_marks 1 Sequential.init (scrapped (six_parts Num)));
    reflexivity.
Defined.

(** X15: hadiths one after the other all get the book and the chapter
    that are set when the first of them is reached, whether that one is
    read at its iteration or was cached by the part before it; the book
    and the chapter stay as they are. *)
Theorem hadiths_share (tashkeel : N -> bool) (k : nat) (i : Z)
    (v : Sequential.vars) (d : disk) :
  (Sequential.nextPart v = Empty \/
   exists p, source d !! i = Some p /\
             Sequential.nextPart v = Full (sanitized tashkeel p)) ->
  (forall j, i <= j < i + Z.of_nat k ->
             exists p, source d !! j = Some p /\ truthy (hadith p) = true) ->
  exists d' v',
    for_loop k i (Sequential.categorize tashkeel) v d = (d', Some v') /\
    Sequential.book v' = Sequential.book v /\
    Sequential.chapter v' = Sequential.chapter v /\
    forall j p, i <= j < i + Z.of_nat k -> source d !! j = Some p ->
      processed d' !! j =
      Some (attached tashkeel p (Sequential.book v) (Sequential.chapter v)).
Proof.
  intros Hc Hall. destruct k as [|k].
  - exists d, v. repeat split. intros j p Hj. lia.
  - destruct (Hall i ltac:(lia)) as (p & Hp & Hh).
    assert (Hc' : Sequential.nextPart v = Empty \/
                  Sequential.nextPart v = Full (sanitized tashkeel p)).
    { destruct Hc as [?|(p' & Hp' & ?)]; [left; assumption|right; congruence]. }
    cbn [for_loop].
    rewrite (bind_ok _ _ _ _ _ (categorize_hadith tashkeel i v d p Hc' Hp Hh)).
    set (d1 := mkDisk _ _ _). set (v1 := Sequential.mkVars _ _ _ _).
    destruct (for_loop_hadiths_from tashkeel k (i + 1) v1 d1 eq_refl)
      as (d' & Hrun & Hout).
    { intros j Hj. apply Hall. lia. }
    exists d'. eexists. split; [exact Hrun|].
    split; [destruct (k =? 0)%nat; reflexivity|].
    split; [destruct (k =? 0)%nat; reflexivity|].
    intros j q Hj Hq. destruct (Z.eq_dec j i) as [->|Hne].
    + apply for_loop_frame in Hrun as [_ Hframe].
      rewrite Hframe by lia. subst d1. cbn [processed].
      rewrite lookup_insert_eq. congruence.
    + apply (Hout j q); [lia|exact Hq].
Qed.

Lemma hadiths_share_witness :
  let chapter := sanitized arabic_marks (raw 1 (lit "<b>chapter</b>") None Null) in
  let first := raw 2 (lit "1 - first") (Some 1) Null in
  let d := scrapped [raw 1 (lit "<b>chapter</b>") None Null; first;
                     raw 3 (lit "2 - second") (Some 2) Null] in
  let v := Sequential.mkVars (Full (sanitized arabic_marks first)) Empty
             (Full chapter) Empty in
  exists d' v',
    for_loop 2 2 (Sequential.categorize arabic_marks) v d = (d', Some v') /\
    Sequential.book v' = Sequential.book v /\
    Sequential.chapter v' = Sequential.chapter v /\
    forall j p, 2 <= j < 2 + Z.of_nat 2 -> source d !! j = Some p ->
      processed d' !! j =
      Some (attached arabic_marks p (Sequential.book v) (Sequential.chapter v)).
Proof.
  intros chapter first d v.
  apply (hadiths_share arabic_marks 2 2 v d).
  - right. exists first. split; reflexivity.
  - intros j Hj. assert (j = 2 \/ j = 3) as [-> | ->] by lia;
      eexists; split; reflexivity.
Defined.

(** ** The processor that follows the navigation bar, continued *)

Section IndexedLoop.

Variable tashkeel : N -> bool.
Variable searchReference : list Nav.Book.

Lemma categorize_not_hadith i d p :
  source d !! i = Some p ->
  Indexed.not_hadith p = true ->
  Indexed.categorize tashkeel searchReference i tt d =
  (mkDisk (source d) (<[i := sanitized tashkeel p]> (processed d))
          (writes d ++ [(i, sanitized tashkeel p)]),
   Some tt).
Proof.
  intros Hs Hh. unfold Indexed.categorize.
  rewrite (bind_ok _ _ _ _ _ (processPart_source tashkeel i d p Hs)).
  change (Indexed.not_hadith (sanitized tashkeel p)) with (Indexed.not_hadith p).
  rewrite Hh. reflexivity.
Qed.

Lemma for_loop_not_hadiths k : forall i d,
  (forall j, i <= j < i + Z.of_nat k ->
             exists p, source d !! j = Some p /\ Indexed.not_hadith p = true) ->
  exists d',
    for_loop k i (Indexed.categorize tashkeel searchReference) tt d = (d', Some tt) /\
    source d' = source d /\
    (forall j p, i <= j < i + Z.of_nat k -> source d !! j = Some p ->
       processed d' !! j = Some (sanitized tashkeel p)) /\
    (forall j, j < i \/ i + Z.of_nat k <= j -> processed d' !! j = processed d !! j).
Proof.
  induction k as [|k IH]; intros i d Hall.
  - exists d. repeat split. intros j p Hj. lia.
  - destruct (Hall i ltac:(lia)) as (p & Hp & Hh).
    cbn [for_loop]. rewrite (bind_ok _ _ _ _ _ (categorize_not_hadith i d p Hp Hh)).
    set (d1 := mkDisk _ _ _).
    destruct (IH (i + 1) d1) as (d' & Hrun & Hsrc & Hout & Hframe).
    { intros j Hj. apply Hall. lia. }
    exists d'. split; [exact Hrun|]. split; [exact Hsrc|]. split.
    + intros j q Hj Hq. destruct (Z.eq_dec j i) as [->|Hne].
      * rewrite Hframe by lia. subst d1. cbn [processed].
        rewrite lookup_insert_eq. congruence.
      * apply Hout; [lia|exact Hq].
    + intros j Hj. rewrite Hframe by lia. subst d1. cbn [processed].
      apply lookup_insert_ne. lia.
Qed.

End IndexedLoop.

(** X16: when the first hadith of the directory lies before every
    chapter of the navigation bar, the run of [initCategorization]
    ends there with an exception: the parts before it are written as
    [processPart] returns them, the hadith and the files after it are
    not written. *)
Theorem hadith_not_found_ends_run (tashkeel : N -> bool)
    (searchReference : list Nav.Book) (d : disk) (m : nat) (p : part) :
  (m < files_length d)%nat ->
  (forall j, 1 <= j <= Z.of_nat m ->
             exists q, source d !! j = Some q /\ Indexed.not_hadith q = true) ->
  source d !! (Z.of_nat m + 1) = Some p ->
  Indexed.not_hadith p = false ->
  Nav.getChapterBook searchReference (id p) = Nav.mkChapterBook None None ->
  let out := Indexed.initCategorization tashkeel searchReference d in
  snd out = None /\
  (forall j q, 1 <= j <= Z.of_nat m -> source d !! j = Some q ->
     processed (fst out) !! j = Some (sanitized tashkeel q)) /\
  (forall j, Z.of_nat m < j -> processed (fst out) !! j = processed d !! j).
Proof.
  intros Hm Hall Hp Hh Hl. cbv zeta. unfold Indexed.initCategorization.
  replace (files_length d) with (m + S (files_length d - m - 1))%nat by lia.
  rewrite for_loop_app.
  destruct (for_loop_not_hadiths tashkeel searchReference m 1 d)
    as (d1 & Hrun & Hsrc & Hout & Hframe).
  { intros j Hj. apply Hall. lia. }
  rewrite Hrun. cbn [for_loop].
  rewrite (bind_throw _ _ d1 d1).
  - cbn [fst snd]. split; [reflexivity|]. split.
    + intros j q Hj Hq. apply Hout; [lia|exact Hq].
    + intros j Hj. apply Hframe. lia.
  - apply categorize_not_found with (p0 := p).
    + rewrite Hsrc. rewrite Z.add_comm. exact Hp.
    + exact Hh.
    + exact Hl.
Qed.

Lemma hadith_not_found_ends_run_witness :
  let d := scrapped [raw 1 (lit "preface") None Null;
                     raw 2 (lit "1 - hadith") (Some 1) Null;
                     raw 3 (lit "book") None Null] in
  let out := Indexed.initCategorization arabic_marks
               (Nav.sortReference [Nav.mkBook (lit "book") 3 [Nav.mkChapter (lit "chapter") 4]]) d in
  snd out = None /\
  (forall j q, 1 <= j <= Z.of_nat 1 -> source d !! j = Some q ->
     processed (fst out) !! j = Some (sanitized arabic_marks q)) /\
  (forall j, Z.of_nat 1 < j -> processed (fst out) !! j = processed d !! j).
Proof.
  apply (hadith_not_found_ends_run arabic_marks _ _ 1
           (raw 2 (lit "1 - hadith") (Some 1) Null)).
  - vm_compute. lia.
  - intros j Hj. assert (j = 1) as -> by lia. eexists. split; reflexivity.
  - reflexivity.
  - reflexivity.
  - reflexivity.
Defined.

(** X17: when the file of the book, or the file of a chapter of another
    page than the id of the part, is not in the output directory, the
    iteration throws and writes nothing; so it is when the book begins
    at the hadith itself. *)
Theorem header_file_missing (tashkeel : N -> bool)
    (searchReference : list Nav.Book) (i : Z) (d : disk) (p : part)
    (b : Nav.Book) (c : Nav.Chapter) :
  source d !! i = Some p ->
  Indexed.not_hadith p = false ->
  Nav.getChapterBook searchReference (id p) = Nav.mkChapterBook (Some b) (Some c) ->
  processed d !! page b = None \/
    (page c <> id p /\ processed d !! page c = None) ->
  Indexed.categorize tashkeel searchReference i tt d = (d, None).
Proof.
  intros Hs Hh Hl Hmiss. unfold Indexed.categorize.
  rewrite (bind_ok _ _ _ _ _ (processPart_source tashkeel i d p Hs)).
  change (Indexed.not_hadith (sanitized tashkeel p)) with (Indexed.not_hadith p).
  rewrite Hh, sanitized_id, Hl. cbn [Nav.book Nav.chapter Indexed.member].
  rewrite (bind_ok _ _ d d b eq_refl).
  destruct (processed d !! page b) as [bk|] eqn:Hb.
  - destruct Hmiss as [?|[Hne Hc]]; [discriminate|].
    rewrite (bind_ok _ _ _ _ _ (readPart_processed d _ _ Hb)).
    rewrite (bind_ok _ _ d d c eq_refl).
    rewrite page_member_id.
    apply bind_throw. unfold Indexed.readPart, readFile. rewrite Hc. reflexivity.
  - apply bind_throw. unfold Indexed.readPart, readFile. rewrite Hb. reflexivity.
Qed.

Lemma header_file_missing_witness :
  Indexed.categorize arabic_marks
    (Nav.sortReference [Nav.mkBook (lit "book") 1 [Nav.mkChapter (lit "chapter") 1]])
    1 tt (scrapped [raw 1 (lit "book, chapter, 1 - hadith") (Some 1) Null]) =
  (scrapped [raw 1 (lit "book, chapter, 1 - hadith") (Some 1) Null], None).
Proof.
  apply (header_file_missing arabic_marks _ 1 _
           (raw 1 (lit "book, chapter, 1 - hadith") (Some 1) Null)
           (Nav.mkBook (lit "book") 1 [Nav.mkChapter (lit "chapter") 1])
           (Nav.mkChapter (lit "chapter") 1)).
  - reflexivity.
  - reflexivity.
  - reflexivity.
  - left. reflexivity.
Defined.



(** ** Reading a part *)

(** X19: [processPart], and [readPart] of the sequential processor,
    return the same for a scrapped file and leave the directories as
    they are: the part with its id, [hadith] and [caption_id], the
    content sanitized, without any tag, and [noTashkeelContent] with
    the characters of the content that are no tashkeel, and no other. *)
Theorem processPart_returns (tashkeel : N -> bool) (i : Z) (d : disk) (p : part) :
  source d !! i = Some p ->
  exists q t,
    Indexed.processPart tashkeel i d = (d, Some q) /\
    Sequential.readPart tashkeel i d = (d, Some q) /\
    id q = id p /\ hadith q = hadith p /\ caption_id q = caption_id p /\
    content q = sanitize (content p) /\ tag_free (content q) /\
    noTashkeelContent q = Some t /\
    (length t <= length (content q))%nat /\
    forall c, In c t <-> In c (content q) /\ tashkeel c = false.
Proof.
  intros H. exists (sanitized tashkeel p), (strip tashkeel (sanitize (content p))).
  split; [exact (processPart_source tashkeel i d p H)|].
  split.
  { unfold Sequential.readPart, bind, readFile, ret. rewrite H. reflexivity. }
  repeat split; try apply sanitize_tag_free_fuel with (n := length (content p));
    try reflexivity.
  - apply filter_length_le.
  - unfold strip in *. apply filter_In in H0. tauto.
  - unfold strip in *. apply filter_In in H0 as [_ H0].
    apply negb_true_iff in H0. exact H0.
  - intros [H1 H2]. unfold strip. apply filter_In. split; [exact H1|].
    rewrite H2. reflexivity.
Qed.

Lemma processPart_returns_witness :
  exists q t,
    Indexed.processPart arabic_marks 2 moslim_disk = (moslim_disk, Some q) /\
    Sequential.readPart arabic_marks 2 moslim_disk = (moslim_disk, Some q) /\
    id q = 2 /\ hadith q = Some 1 /\ caption_id q = Null /\
    content q = sanitize (lit "<b>chapter</b> 1 - hadith") /\ tag_free (content q) /\
    noTashkeelContent q = Some t /\
    (length t <= length (content q))%nat /\
    forall c, In c t <-> In c (content q) /\ arabic_marks c = false.
Proof.
  apply (processPart_returns arabic_marks 2 moslim_disk
           (raw 2 (lit "<b>chapter</b> 1 - hadith") (Some 1) Null)).
  reflexivity.
Defined.

(** X20: a file that is missing in the scrapped directory makes both
    processors throw at its iteration, before anything is written for
    it; when the part before it is no hadith the sequential processor
    throws already there, on reading the missing file ahead, after it
    has written the file of that part. *)
Theorem missing_file_throws (tashkeel : N -> bool)
    (searchReference : list Nav.Book) (i : Z) (d : disk) :
  source d !! i = None ->
  Indexed.categorize tashkeel searchReference i tt d = (d, None) /\
  (forall v, Sequential.nextPart v = Empty ->
     Sequential.categorize tashkeel i v d = (d, None)) /\
  (forall v p,
     source d !! (i - 1) = Some p -> truthy (hadith p) = false ->
     Sequential.nextPart v = Empty \/
       Sequential.nextPart v = Full (sanitized tashkeel p) ->
     Sequential.categorize tashkeel (i - 1) v d =
     (mkDisk (source d) (<[i - 1 := sanitized tashkeel p]> (processed d))
             (writes d ++ [(i - 1, sanitized tashkeel p)]),
      None)).
Proof.
  intros Hs. split; [|split].
  - unfold Indexed.categorize. apply bind_throw.
    unfold Indexed.processPart. apply bind_throw.
    unfold Indexed.readPart, readFile. rewrite Hs. reflexivity.
  - intros v Hn. unfold Sequential.categorize. rewrite Hn. cbn [Sequential.cached].
    apply bind_throw. apply readPart_missing. exact Hs.
  - intros v p Hp Hh Hn.
    apply (categorize_header_last tashkeel (i - 1) v d p Hn Hp Hh).
    replace (i - 1 + 1) with i by lia. exact Hs.
Qed.

Lemma missing_file_throws_witness :
  let d := scrapped [raw 1 (lit "chapter") None Null] in
  Indexed.categorize arabic_marks [] 2 tt d = (d, None) /\
  (forall v, Sequential.nextPart v = Empty ->
     Sequential.categorize arabic_marks 2 v d = (d, None)) /\
  (forall v p,
     source d !! (2 - 1) = Some p -> truthy (hadith p) = false ->
     Sequential.nextPart v = Empty \/
       Sequential.nextPart v = Full (sanitized arabic_marks p) ->
     Sequential.categorize arabic_marks (2 - 1) v d =
     (mkDisk (source d) (<[2 - 1 := sanitized arabic_marks p]> (processed d))
             (writes d ++ [(2 - 1, sanitized arabic_marks p)]),
      None)).
Proof.
  apply (missing_file_throws arabic_marks [] 2
           (scrapped [raw 1 (lit "chapter") None Null])).
  reflexivity.
Defined.

(** ** Runs of [initCategorization] that get through *)

Section IndexedRuns.

Variable tashkeel : N -> bool.
Variable searchReference : list Nav.Book.

(** An iteration gets through when the lookup finds a book and a
    chapter whose files are in the output directory. *)
Lemma categorize_succeeds i d p :
  source d !! i = Some p ->
  (Indexed.not_hadith p = false ->
   exists b c,
     Nav.getChapterBook searchReference (id p) = Nav.mkChapterBook (Some b) (Some c) /\
     is_Some (processed d !! page b) /\
     is_Some (processed d !! page c)) ->
  exists d',
    Indexed.categorize tashkeel searchReference i tt d = (d', Some tt) /\
    is_Some (processed d' !! i).
Proof.
  intros Hs Hfound.
  destruct (Indexed.not_hadith p) eqn:Hh.
  - rewrite (categorize_not_hadith tashkeel searchReference i d p Hs Hh).
    eexists. split; [reflexivity|]. cbn [processed]. rewrite lookup_insert_eq. eauto.
  - destruct (Hfound eq_refl) as (b & c & Hl & [bk Hb] & [ch Hc]).
    unfold Indexed.categorize.
    rewrite (bind_ok _ _ _ _ _ (processPart_source tashkeel i d p Hs)).
    change (Indexed.not_hadith (sanitized tashkeel p)) with (Indexed.not_hadith p).
    rewrite Hh, sanitized_id, Hl. cbn [Nav.book Nav.chapter Indexed.member].
    rewrite (bind_ok _ _ d d b eq_refl).
    rewrite (bind_ok _ _ _ _ _ (readPart_processed d _ _ Hb)).
    rewrite (bind_ok _ _ d d c eq_refl).
    rewrite page_member_id.
    rewrite (bind_ok _ _ _ _ _ (readPart_processed d _ _ Hc)).
    eexists. split; [reflexivity|]. cbn [processed]. rewrite lookup_insert_eq. eauto.
Qed.

Lemma for_loop_succeeds n : forall i d,
  1 <= i ->
  (forall j, 1 <= j < i -> is_Some (processed d !! j)) ->
  (forall j, i <= j < i + Z.of_nat n -> is_Some (source d !! j)) ->
  (forall j p, source d !! j = Some p -> Indexed.not_hadith p = false ->
     exists b c,
       Nav.getChapterBook searchReference (id p) = Nav.mkChapterBook (Some b) (Some c) /\
       1 <= page b < j /\ 1 <= page c < j) ->
  exists d',
    for_loop n i (Indexed.categorize tashkeel searchReference) tt d = (d', Some tt) /\
    forall j, 1 <= j < i + Z.of_nat n -> is_Some (processed d' !! j).
Proof.
  induction n as [|n IH]; intros i d Hi Hdone Hfiles Hbar.
  - exists d. split; [reflexivity|]. intros j Hj. apply Hdone. lia.
  - destruct (Hfiles i ltac:(lia)) as [p Hp].
    destruct (categorize_succeeds i d p Hp) as (d1 & Hrun & Hi1).
    { intros Hh. destruct (Hbar i p Hp Hh) as (b & c & Hl & Hb & Hc).
      exists b, c. split; [exact Hl|]. split; apply Hdone; assumption. }
    pose proof (indexed_categorize_frame _ _ _ _ _ _ _ Hrun) as [Hsrc Hframe].
    cbn [for_loop]. rewrite (bind_ok _ _ _ _ _ Hrun).
    destruct (IH (i + 1) d1) as (d' & Hrun' & Hall); [lia| | | |].
    + intros j Hj. destruct (Z.eq_dec j i) as [->|Hne]; [exact Hi1|].
      rewrite Hframe by exact Hne. apply Hdone. lia.
    + intros j Hj. rewrite Hsrc. apply Hfiles. lia.
    + intros j q. rewrite Hsrc. apply Hbar.
    + exists d'. split; [exact Hrun'|]. intros j Hj. apply Hall. lia.
Qed.

End IndexedRuns.

(** X21: on a directory with the files [1] to [N], when for every
    hadith the lookup finds a book and a chapter of earlier pages, the
    run of [initCategorization] ends without an exception and every
    file is written. *)
Theorem indexed_run_succeeds (tashkeel : N -> bool)
    (searchReference : list Nav.Book) (d : disk) :
  dense d ->
  (forall j p, source d !! j = Some p -> Indexed.not_hadith p = false ->
     exists b c,
       Nav.getChapterBook searchReference (id p) = Nav.mkChapterBook (Some b) (Some c) /\
       1 <= page b < j /\ 1 <= page c < j) ->
  let out := Indexed.initCategorization tashkeel searchReference d in
  snd out = Some tt /\
  forall j, 1 <= j <= Z.of_nat (files_length d) -> is_Some (processed (fst out) !! j).
Proof.
  intros Hd Hbar. cbv zeta. unfold Indexed.initCategorization.
  destruct (for_loop_succeeds tashkeel searchReference (files_length d) 1 d)
    as (d' & Hrun & Hall).
  - lia.
  - intros j Hj. lia.
  - intros j Hj. apply Hd. lia.
  - exact Hbar.
  - rewrite Hrun. cbn [fst snd]. split; [reflexivity|].
    intros j Hj. apply Hall. lia.
Qed.

Lemma indexed_run_succeeds_witness :
  let out := Indexed.initCategorization arabic_marks moslim_reference
               (scrapped apart_parts) in
  snd out = Some tt /\
  forall j, 1 <= j <= Z.of_nat (files_length (scrapped apart_parts)) ->
            is_Some (processed (fst out) !! j).
Proof.
  apply (indexed_run_succeeds arabic_marks moslim_reference (scrapped apart_parts)).
  - apply scrapped_dense.
  - intros j p Hp Hh.
    assert (Hj : is_Some (source (scrapped apart_parts) !! j)) by eauto.
    apply scrapped_dense in Hj. change (files_length _) with 3%nat in Hj.
    assert (j = 1 \/ j = 2 \/ j = 3) as [-> | [-> | ->]] by lia.
    + injection Hp as <-. discriminate Hh.
    + injection Hp as <-. discriminate Hh.
    + injection Hp as <-.
      exists (Nav.mkBook (lit "the book") 1 [Nav.mkChapter (lit "the chapter") 2]),
             (Nav.mkChapter (lit "the chapter") 2).
      repeat split; cbn; lia.
Defined.



(** X22: a directory without hadiths is written part by part, each as
    [processPart] returns it, whatever the navigation bar; the run ends
    without an exception. *)
Theorem no_hadith_run (tashkeel : N -> bool) (searchReference : list Nav.Book)
    (d : disk) :
  (forall j, 1 <= j <= Z.of_nat (files_length d) ->
             exists p, source d !! j = Some p /\ Indexed.not_hadith p = true) ->
  let out := Indexed.initCategorization tashkeel searchReference d in
  snd out = Some tt /\
  forall j p, 1 <= j <= Z.of_nat (files_length d) -> source d !! j = Some p ->
    processed (fst out) !! j = Some (sanitized tashkeel p).
Proof.
  intros Hall. cbv zeta. unfold Indexed.initCategorization.
  destruct (for_loop_not_hadiths tashkeel searchReference (files_length d) 1 d)
    as (d' & Hrun & _ & Hout & _).
  { intros j Hj. apply Hall. lia. }
  rewrite Hrun. cbn [fst snd]. split; [reflexivity|].
  intros j p Hj Hp. apply Hout; [lia|exact Hp].
Qed.

Lemma no_hadith_run_witness :
  let d := scrapped [raw 1 (lit "<b>book</b>") None Null;
                     raw 2 (lit "<b>chapter</b>") (Some (-1)) Null] in
  let out := Indexed.initCategorization arabic_marks [] d in
  snd out = Some tt /\
  forall j p, 1 <= j <= Z.of_nat (files_length d) -> source d !! j = Some p ->
    processed (fst out) !! j = Some (sanitized arabic_marks p).
Proof.
  apply (no_hadith_run arabic_marks []).
  intros j Hj. change (files_length _) with 2%nat in Hj.
  assert (j = 1 \/ j = 2) as [-> | ->] by lia; eexists; split; reflexivity.
Defined.
